(** * KLI-LEARNING-LAB: record normalisation and merge pipeline

    A shallow embedding of the data-shaping core of the repository:
    - [KCI_collector.py]  : tree flattener, path extractor, Source A
      normaliser and the detail-enrichment pass;
    - [RISS_collector.py] : Source B flattener and record normaliser;
    - [query_normalizer.py] : the query bundle;
    - [app.py] : [normalize_title] and [merge_frames].

    Python values are an inductive type, [dict]s read from XML are
    association lists (insertion order is observable in the Source B
    flattener), flat article dicts and DataFrame rows are [gmap]s keyed
    by field name, and code that may raise returns a [result]. *)

From Stdlib Require Import ZArith NArith Ascii String Lia.
From stdpp Require Import base option list sorting strings gmap.

Set Warnings "-register-all,-clear-no-such-hyp".
Local Open Scope N_scope.

(** ** Python strings *)

(** A Python [str] is a sequence of code points. *)
Abbreviation str := (list N).

(** Literals are written as Rocq strings, whose bytes are the UTF-8 encoding
    of the text; [utf8_decode] turns them back into code points. *)
Fixpoint utf8_decode (need : nat) (acc : N) (bs : list N) : str :=
  match bs with
  | [] => []
  | b :: bs' =>
      match need with
      | S n =>
          let acc' := acc * 64 + b mod 64 in
          match n with
          | O => acc' :: utf8_decode 0 0 bs'
          | S _ => utf8_decode n acc' bs'
          end
      | O =>
          if b <? 128 then b :: utf8_decode 0 0 bs'
          else if b <? 224 then utf8_decode 1 (b mod 32) bs'
          else if b <? 240 then utf8_decode 2 (b mod 16) bs'
          else utf8_decode 3 (b mod 8) bs'
      end
  end.

Definition lit (s : string) : str :=
  utf8_decode 0 0 (map N_of_ascii (list_ascii_of_string s)).

Definition nonempty (s : str) : bool :=
  match s with [] => false | _ :: _ => true end.

(** [sep.join(parts)] *)
Fixpoint join (sep : str) (parts : list str) : str :=
  match parts with
  | [] => []
  | [p] => p
  | p :: ps => p ++ sep ++ join sep ps
  end.

(** ** Python values *)

Inductive value :=
| VNone
| VStr (s : str)
| VInt (z : Z)
| VList (items : list value)
| VDict (entries : list (string * value)).

(** A dict read from XML: entries in insertion order, keys are tag or
    attribute names (kept as their UTF-8 bytes, they are only compared). *)
Abbreviation dict := (list (string * value)).

Fixpoint dict_get (key : string) (d : dict) : option value :=
  match d with
  | [] => None
  | (k, v) :: d' => if String.eqb k key then Some v else dict_get key d'
  end.

(** [key in d] *)
Definition dict_has (key : string) (d : dict) : bool :=
  match dict_get key d with Some _ => true | None => false end.

(** Truth value of a Python object, as [if x:] and [not x] read it. *)
Definition truthy (v : value) : bool :=
  match v with
  | VNone => false
  | VStr s => nonempty s
  | VInt z => negb (z =? 0)%Z
  | VList l => match l with [] => false | _ => true end
  | VDict d => match d with [] => false | _ => true end
  end.

(** ** Exceptions *)

(** [NotModelled] is not a Python exception: it marks the one place where
    pandas goes on with a value this embedding has no type for. *)
Inductive exn :=
  AttributeError | IndexError | KeyError | TypeError | NotModelled.

Inductive result (A : Type) :=
| Ok (a : A)
| Raise (e : exn).
Arguments Ok {A} a.
Arguments Raise {A} e.

#[global] Instance result_ret : MRet result := @Ok.
#[global] Instance result_bind : MBind result := fun A B f m =>
  match m with Ok a => f a | Raise e => Raise e end.

(** [obj.get(key, dflt)]: only a dict has the method. *)
Definition py_get (obj : value) (key : string) (dflt : value) : result value :=
  match obj with
  | VDict d => Ok (default dflt (dict_get key d))
  | _ => Raise AttributeError
  end.

(** [xs[-1]] on a list *)
Definition py_last {A} (xs : list A) : result A :=
  match last xs with Some x => Ok x | None => Raise IndexError end.

(** [xs[0]] on a list *)
Definition py_first {A} (xs : list A) : result A :=
  match xs with x :: _ => Ok x | [] => Raise IndexError end.

(** [xs[i]] *)
Definition index {A} (xs : list A) (i : nat) : result A :=
  match xs !! i with Some x => Ok x | None => Raise IndexError end.

(** [article.get(key)] on a flat article dict *)
Definition field (article : gmap string value) (key : string) : value :=
  default VNone (article !! key).

(** What a [for] loop over a value that should be a list of records
    iterates: a lone dict is wrapped by the callers, a str gives its
    characters, [None] and numbers are not iterable. *)
Definition iter_records (records : value) : result (list value) :=
  match records with
  | VDict _ => Ok [records]
  | VList l => Ok l
  | VStr s => Ok (map (fun c => VStr [c]) s)
  | VNone | VInt _ => Raise TypeError
  end.

(** ** The interpreter's tables

    Unicode character classes, case mapping, [str()] of a non-string and
    the iteration order of a [set] belong to the Python runtime, not to the
    repository; the development is parametric in them. *)

Class PyRuntime := {
  (** [str.isspace], also the class [\s] of [re] on [str] patterns *)
  isspace : N -> bool;
  (** the class [\d] of [re] on [str] patterns *)
  isdecimal : N -> bool;
  (** [str.lower] *)
  lower : str -> str;
  (** [str(x)] for [x] that is not a [str] *)
  repr : value -> str;
  (** [list(set(l))] *)
  set_order : list str -> list str;
  isdecimal_ascii : forall c, 48 <= c <= 57 -> isdecimal c = true;
  set_order_NoDup : forall l, NoDup (set_order l);
  set_order_elem : forall l x, x ∈ set_order l <-> x ∈ l
}.

Section strings.
Context `{PyRuntime}.

(** [str(x)] *)
Definition py_str (v : value) : str :=
  match v with VStr s => s | _ => repr v end.

Fixpoint lstrip (s : str) : str :=
  match s with
  | c :: s' => if isspace c then lstrip s' else s
  | [] => []
  end.

(** [s.strip()] *)
Definition strip (s : str) : str := reverse (lstrip (reverse (lstrip s))).

End strings.

(** * KCI_collector.py *)

Module KCI.

(** Keys of the [details] dict: the hashable values. *)
Inductive hashable := HNone | HStr (s : str) | HInt (z : Z).

#[global] Instance hashable_eq_dec : EqDecision hashable.
Proof. solve_decision. Defined.

(** Hashing a list or a dict is a [TypeError]. *)
Definition hash_key (v : value) : result hashable :=
  match v with
  | VNone => Ok HNone
  | VStr s => Ok (HStr s)
  | VInt z => Ok (HInt z)
  | VList _ | VDict _ => Raise TypeError
  end.

(** The dict returned by [get_article_detail_batch]. *)
Abbreviation details_map := (list (hashable * value)).

Fixpoint details_get (details : details_map) (k : hashable) : option value :=
  match details with
  | [] => None
  | (k', v) :: rest => if decide (k' = k) then Some v else details_get rest k
  end.

Section kci.
Context `{PyRuntime}.

(** The keys that stop the descent into a single-entry dict. *)
Definition excluded (key : string) : bool :=
  bool_decide (key ∈ ["lang"; "type"; "id"]%string).

(** [for key in keys: if key in data: return data[key]] *)
Fixpoint first_present (keys : list string) (d : dict) : option value :=
  match keys with
  | [] => None
  | k :: ks =>
      match dict_get k d with
      | Some v => Some v
      | None => first_present ks d
      end
  end.

Fixpoint _extract_text_fast (data : value) : str :=
  match data with
  | VNone => []
  | VStr s => strip s
  | VDict d =>
      match dict_get "text" d with
      | Some v => strip (py_str v)
      | None =>
          match first_present ["#text"; "content"; "value"]%string d with
          | Some v => strip (py_str v)
          | None =>
              match d with
              | [(key, v)] =>
                  if excluded key then [] else _extract_text_fast v
              | _ => []
              end
          end
      end
  | VList (x :: _) => _extract_text_fast x
  | VList [] => []
  | VInt z => if (z =? 0)%Z then [] else strip (py_str (VInt z))
  end.

(** [_extract_from_path]: the loop over [path[:-1]]; [None] is its
    early [return []]. *)
Fixpoint walk (current : value) (keys : list string) : option value :=
  match keys with
  | [] => Some current
  | key :: keys' =>
      match current with
      | VDict d =>
          match dict_get key d with
          | Some v => walk v keys'
          | None => None
          end
      | _ => None
      end
  end.

(** The texts kept from the value found under the last key. *)
Definition collect_texts (keyword_data : value) : list str :=
  match keyword_data with
  | VList items => filter (fun t => nonempty t = true) (map _extract_text_fast items)
  | _ =>
      let text := _extract_text_fast keyword_data in
      if nonempty text then [text] else []
  end.

Definition _extract_from_path (data : value) (path : list string)
  : result (list str) :=
  match walk data (removelast path) with
  | None => Ok []
  | Some current =>
      match current with
      | VDict d =>
          (* [path[-1]] is evaluated only once [current] is known to be a dict *)
          key ← py_last path;
          match dict_get key d with
          | None => Ok []
          | Some keyword_data => Ok (collect_texts keyword_data)
          end
      | _ => Ok []
      end
  end.

(** [detail_info.get('outputData', {}).get('record', {}).get('articleInfo', {})] *)
Definition detail_article_info (detail_info : value) : result value :=
  output_data ← py_get detail_info "outputData" (VDict []);
  record ← py_get output_data "record" (VDict []);
  py_get record "articleInfo" (VDict []).

(** The loop over [keyword_sources]: the first path with a non-empty
    result wins. *)
Fixpoint first_keywords (sources : list (value * list string)) : result str :=
  match sources with
  | [] => Ok []
  | (source_data, path) :: rest =>
      keywords ← _extract_from_path source_data path;
      match keywords with
      | [] => first_keywords rest
      | _ :: _ => Ok (join (lit "; ") keywords)
      end
  end.

(** [detail_info] is [VNone] where the source leaves the default. *)
Definition _extract_keywords_optimized (article_info detail_info : value)
  : result str :=
  let keyword_sources :=
    [ (article_info, ["keyword-group"; "keyword"]%string);
      (article_info, ["kwd-group"; "kwd"]%string);
      (article_info, ["keywords"]%string);
      (article_info, ["keyword"]%string) ] in
  extra ←
    (if truthy detail_info then
       info ← detail_article_info detail_info;
       Ok [ (info, ["keyword-group"; "keyword"]%string);
            (info, ["kwd-group"; "kwd"]%string) ]
     else Ok []);
  first_keywords (keyword_sources ++ extra).

Fixpoint first_abstract (article_info : value) (candidates : list (list string))
  : str :=
  match candidates with
  | [] => []
  | path :: rest =>
      match walk article_info path with
      | Some cur =>
          let txt := _extract_text_fast cur in
          if nonempty txt then txt else first_abstract article_info rest
      | None => first_abstract article_info rest
      end
  end.

Definition _extract_abstract_optimized (article_info : value) : str :=
  match article_info with
  | VDict _ =>
      first_abstract article_info
        [ ["abstract"]; ["abstract-group"; "abstract"];
          ["abstract"; "p"]; ["abstract"; "text"];
          ["abstract-group"; "abstract"; "p"];
          ["abstract-group"; "abstract"; "text"] ]%string
  | _ => []
  end.

(** [self._extract_text_fast(obj.get(key, {}))] *)
Definition text_at (obj : value) (key : string) : result value :=
  v ← py_get obj key (VDict []);
  Ok (VStr (_extract_text_fast v)).

(** [authors[:5]], then iterated: a list gives its items, a str its
    characters, anything else is not subscriptable. *)
Definition first_five (authors : value) : result (list value) :=
  match authors with
  | VList l => Ok (take 5 l)
  | VStr s => Ok (map (fun c => VStr [c]) (take 5 s))
  | _ => Raise TypeError
  end.

(** [x or dflt] on strings *)
Definition or_default (x dflt : str) : str := if nonempty x then x else dflt.

Definition no_title : str := lit "제목 없음".

Definition _extract_basic_info (record : value) : result (gmap string value) :=
  let article : gmap string value := ∅ in
  journal_info ← py_get record "journalInfo" (VDict []);
  v ← text_at journal_info "journal-name";
  let article := <["journal_name" := v]> article in
  v ← text_at journal_info "publisher-name";
  let article := <["publisher_name" := v]> article in
  v ← text_at journal_info "pub-year";
  let article := <["pub_year" := v]> article in
  v ← text_at journal_info "pub-mon";
  let article := <["pub_mon" := v]> article in
  v ← text_at journal_info "volume";
  let article := <["volume" := v]> article in
  v ← text_at journal_info "issue";
  let article := <["issue" := v]> article in
  article_info ← py_get record "articleInfo" (VDict []);
  v ← py_get article_info "article-id" (VStr []);
  let article := <["article_id" := v]> article in
  v ← text_at article_info "article-categories";
  let article := <["categories" := v]> article in
  v ← text_at article_info "article-regularity";
  let article := <["regularity" := v]> article in
  title_group ← py_get article_info "title-group" (VDict []);
  article_title ← py_get title_group "article-title" (VDict []);
  title_text ←
    match article_title with
    | VList l => first ← py_first l; Ok (_extract_text_fast first)
    | _ => Ok (_extract_text_fast article_title)
    end;
  let article := <["title" := VStr (or_default title_text no_title)]> article in
  author_group ← py_get article_info "author-group" (VDict []);
  authors ← py_get author_group "author" (VList []);
  let authors :=
    match authors with VDict _ => VList [authors] | _ => authors end in
  firsts ← first_five authors;
  let author_names :=
    filter (fun t => nonempty t = true) (map _extract_text_fast firsts) in
  let article := <["authors" := VStr (join (lit "; ") author_names)]> article in
  v ← py_get article_info "abstract" (VDict []);
  let abstract_text := _extract_text_fast v in
  abstract_text ←
    (if nonempty abstract_text then Ok abstract_text
     else
       abstract_group ← py_get article_info "abstract-group" (VDict []);
       if truthy abstract_group then
         abstract ← py_get abstract_group "abstract" (VDict []);
         Ok (_extract_text_fast abstract)
       else Ok abstract_text);
  let article := <["abstract" := VStr abstract_text]> article in
  keywords ← _extract_keywords_optimized article_info VNone;
  let article := <["keywords" := VStr keywords]> article in
  v ← text_at article_info "fpage";
  let article := <["fpage" := v]> article in
  v ← text_at article_info "lpage";
  let article := <["lpage" := v]> article in
  v ← text_at article_info "doi";
  let article := <["doi" := v]> article in
  v ← text_at article_info "uci";
  let article := <["uci" := v]> article in
  citation_count ← py_get article_info "citation-count" (VDict []);
  let article :=
    <["citation_count" :=
        VStr (or_default (_extract_text_fast citation_count) (lit "0"))]> article in
  v ← py_get citation_count "kci" (VStr (lit "0"));
  let article := <["kci_citations" := v]> article in
  v ← py_get citation_count "wos" (VStr (lit "0"));
  let article := <["wos_citations" := v]> article in
  v ← text_at article_info "url";
  let article := <["url" := v]> article in
  v ← text_at article_info "verified";
  let article := <["verified" := v]> article in
  v ← text_at article_info "orte-open-yn";
  let article := <["orte_open_yn" := v]> article in
  Ok article.

(** *** Detail enrichment *)

(** Lines 333-337: the keywords write of one loop iteration. *)
Definition enrich_keywords (records : list value) (detail_info : value)
    (i : nat) (articles : list (gmap string value))
  : result (list (gmap string value)) :=
  record ← index records i;
  article_info ← py_get record "articleInfo" (VDict []);
  enhanced_keywords ← _extract_keywords_optimized article_info detail_info;
  if nonempty enhanced_keywords then
    article ← index articles i;
    if negb (truthy (field article "keywords")) then
      Ok (<[i := <["keywords" := VStr enhanced_keywords]> article]> articles)
    else Ok articles
  else Ok articles.

(** Lines 340-344: the abstract write of one loop iteration. *)
Definition enrich_abstract (detail_info : value)
    (i : nat) (articles : list (gmap string value))
  : result (list (gmap string value)) :=
  article ← index articles i;
  if negb (truthy (field article "abstract")) then
    info ← detail_article_info detail_info;
    let enhanced_abs := _extract_abstract_optimized info in
    if nonempty enhanced_abs then
      Ok (<[i := <["abstract" := VStr enhanced_abs]> article]> articles)
    else Ok articles
  else Ok articles.

(** One iteration of [for i, article_id in article_ids_need_detail]. The
    list of articles is mutated in place, so an exception leaves the writes
    made so far: the result is the list reached and the exception, if any. *)
Definition enrich_one (records : list value) (details : details_map)
    (i : nat) (article_id : value) (articles : list (gmap string value))
  : list (gmap string value) * option exn :=
  match hash_key article_id with
  | Raise e => (articles, Some e)
  | Ok k =>
      match details_get details k with
      | None => (articles, None)
      | Some detail_info =>
          match enrich_keywords records detail_info i articles with
          | Raise e => (articles, Some e)
          | Ok articles1 =>
              match enrich_abstract detail_info i articles1 with
              | Raise e => (articles1, Some e)
              | Ok articles2 => (articles2, None)
              end
          end
      end
  end.

(** The second stage; the surrounding [try] stops it at the first
    exception. *)
Fixpoint enrich_details (records : list value) (details : details_map)
    (need : list (nat * value)) (articles : list (gmap string value))
  : list (gmap string value) * option exn :=
  match need with
  | [] => (articles, None)
  | (i, article_id) :: rest =>
      match enrich_one records details i article_id articles with
      | (articles', None) => enrich_details records details rest articles'
      | (articles', Some e) => (articles', Some e)
      end
  end.

(** The first stage: basic info of every record and the list of
    [(index, article_id)] to look up. *)
Fixpoint basic_pass (fetch_details : bool) (i : nat) (records : list value)
  : list (gmap string value) * list (nat * value) * option exn :=
  match records with
  | [] => ([], [], None)
  | record :: rest =>
      match _extract_basic_info record with
      | Raise e => ([], [], Some e)
      | Ok article =>
          let '(articles, need, e) := basic_pass fetch_details (S i) rest in
          let needs_detail :=
            negb (truthy (field article "keywords"))
            || negb (truthy (field article "abstract")) in
          let here :=
            if needs_detail && truthy (field article "article_id") && fetch_details
            then [(i, field article "article_id")] else [] in
          (article :: articles, here ++ need, e)
      end
  end.

(** The rows of the returned DataFrame. [get_article_detail_batch] does the
    network lookups; it is an argument here. *)
Definition extract_article_info_optimized
    (get_article_detail_batch : list value -> result details_map)
    (api_response : value) (fetch_details : bool)
  : list (gmap string value) :=
  if negb (truthy api_response) then []
  else
    match
      (output_data ← py_get api_response "outputData" (VDict []);
       records ← py_get output_data "record" (VList []);
       iter_records records)
    with
    | Raise _ => []
    | Ok records =>
        match basic_pass fetch_details 0 records with
        | (articles, _, Some _) => articles
        | (articles, [], None) => articles
        | (articles, (_ :: _) as need, None) =>
            match get_article_detail_batch (map snd need) with
            | Raise _ => articles
            | Ok details => fst (enrich_details records details need articles)
            end
        end
    end.

End kci.
End KCI.

(** * RISS_collector.py *)

Module RISS.
Section riss.
Context `{PyRuntime}.

(** Nothing in the body raises, so the [except] branch is never taken. *)
Fixpoint _extract_text (data : value) : str :=
  match data with
  | VDict d =>
      match dict_get "text" d with
      | Some v => strip (py_str v)
      | None =>
          match dict_get "#text" d with
          | Some v => strip (py_str v)
          | None =>
              match d with
              | (_, v) :: _ => strip (py_str v)
              | [] => []
              end
          end
      end
  | VStr s => strip s
  | VList (x :: _) => _extract_text x
  | VList [] => strip (py_str (VList []))
  | VNone => []
  | VInt z => strip (py_str (VInt z))
  end.

(** [doc_type_map.get(doc_type, doc_type)] *)
Definition doc_type_name (doc_type : str) : str :=
  if decide (doc_type = lit "T") then lit "학위논문"
  else if decide (doc_type = lit "A") then lit "국내학술논문"
  else if decide (doc_type = lit "F") then lit "해외학술논문"
  else doc_type.

(** [self._extract_text(record.get(key, ''))] *)
Definition text_at (record : value) (key : string) : result str :=
  v ← py_get record key (VStr []);
  Ok (_extract_text v).

(** [if article[key] is None: article[key] = ''] *)
Definition none_to_empty (v : value) : value :=
  match v with VNone => VStr [] | _ => v end.

(** The body of the inner [try]: the article dict built from one record. *)
Definition article_of_record (record : value) : result (gmap string value) :=
  title ← text_at record "riss.title";
  author ← text_at record "riss.author";
  publisher ← text_at record "riss.publisher";
  pub_year ← text_at record "riss.pubdate";
  doc_type ← text_at record "riss.type";
  material_type ← text_at record "riss.mtype";
  url ← text_at record "url";
  has_abstract ← text_at record "riss.abstract";
  has_toc ← text_at record "riss.toc";
  has_image ← text_at record "riss.image";
  let article : gmap string value :=
    <["has_image" := VStr has_image]>
    (<["has_toc" := VStr has_toc]>
    (<["has_abstract" := VStr has_abstract]>
    (<["url" := VStr url]>
    (<["material_type" := VStr material_type]>
    (<["doc_type" := VStr doc_type]>
    (<["pub_year" := VStr pub_year]>
    (<["publisher" := VStr publisher]>
    (<["author" := VStr author]>
    (<["title" := VStr title]> ∅))))))))) in
  let article := <["doc_type_name" := VStr (doc_type_name doc_type)]> article in
  Ok (none_to_empty <$> article).

(** [for record in metadata]: a record whose body raises is skipped, a
    record with a falsy title is not appended. *)
Fixpoint records_loop (metadata : list value) : list (gmap string value) :=
  match metadata with
  | [] => []
  | record :: rest =>
      match article_of_record record with
      | Raise _ => records_loop rest
      | Ok article =>
          if truthy (field article "title") then article :: records_loop rest
          else records_loop rest
      end
  end.

(** The head checks and the loop; an exception here is caught by the outer
    [try], before anything was appended. *)
Definition articles_of_envelope (head metadata : value)
  : result (list (gmap string value)) :=
  total_count ← text_at head "totalcount";
  error ← text_at head "Error";
  if decide (error = lit "0") then
    records ← iter_records metadata;
    Ok (records_loop records)
  else Ok [].

Definition _extract_articles_from_response (api_response : value)
  : list (gmap string value) :=
  match api_response with
  | VDict d =>
      match dict_get "head" d, dict_get "metadata" d with
      | Some head, Some metadata =>
          match articles_of_envelope head metadata with
          | Ok articles => articles
          | Raise _ => []
          end
      | _, _ => []
      end
  | _ =>
      (* falsy, or not a dict: the membership test fails or
         [api_response['head']] raises inside the [try] *)
      []
  end.

End riss.
End RISS.

(** * query_normalizer.py *)

(** [sorted(l, key=...)] is stable: an insertion sort that puts an element
    before the first later element that is not smaller. *)
Section sorting.
Context {A : Type} (le : A -> A -> bool).

Fixpoint insert_sorted (x : A) (l : list A) : list A :=
  match l with
  | [] => [x]
  | y :: l' => if le x y then x :: y :: l' else y :: insert_sorted x l'
  end.

Fixpoint sorted (l : list A) : list A :=
  match l with
  | [] => []
  | x :: l' => insert_sorted x (sorted l')
  end.

End sorting.

(** Order of [str] values: lexicographic on code points. *)
Fixpoint str_le (s t : str) : bool :=
  match s, t with
  | [], _ => true
  | _ :: _, [] => false
  | a :: s', b :: t' => (a <? b) || ((a =? b) && str_le s' t')
  end.

(** [key=lambda x: len(x)] *)
Definition len_le (s t : str) : bool := (length s <=? length t)%nat.

Fixpoint starts_with (p s : str) : bool :=
  match p, s with
  | [], _ => true
  | _ :: _, [] => false
  | a :: p', b :: s' => (a =? b) && starts_with p' s'
  end.

(** [p in s] on strings *)
Fixpoint contains (p s : str) : bool :=
  starts_with p s
  || match s with [] => false | _ :: s' => contains p s' end.

(** [s.split(sep)] for a one-character separator *)
Fixpoint split (sep : N) (s : str) : list str :=
  match s with
  | [] => [[]]
  | c :: s' =>
      if c =? sep then [] :: split sep s'
      else
        match split sep s' with
        | piece :: pieces => (c :: piece) :: pieces
        | [] => [[c]]
        end
  end.

Module QueryNormalizer.

(** One row of [mapping_df] as the loop of [map_with_csv] reads it: the
    [str()] of the three cells it looks at. *)
Record mapping_row := {
  user_pattern : str;
  canonical_term : str;
  synonyms : str
}.

Section query.
Context `{PyRuntime}.

(** The terms one row adds. *)
Definition row_terms (q : str) (row : mapping_row) : list str :=
  let pattern := lower (user_pattern row) in
  if negb (nonempty pattern) then []
  else if contains pattern q || contains q pattern then
    let canonical := strip (canonical_term row) in
    let syns := strip (synonyms row) in
    (if nonempty canonical then [canonical] else [])
    ++ (if nonempty syns then
          filter (fun t => nonempty t = true) (map strip (split 124 syns))
        else [])
  else [].

Definition map_with_csv (mapping_df : list mapping_row) (query : str)
  : list str :=
  match mapping_df with
  | [] => []
  | _ :: _ =>
      let q := lower (strip query) in
      let terms := mapping_df ≫= row_terms q in
      sorted str_le (set_order (filter (fun t => nonempty t = true) terms))
  end.

(** [map_with_ai] asks an external service; it is an argument. *)
Definition normalize (mapping_df : list mapping_row)
    (map_with_ai : str -> list str) (query : str) : list str :=
  let csv_terms := map_with_csv mapping_df query in
  let ai_terms := map_with_ai query in
  let bundle := [query] ++ csv_terms ++ ai_terms in
  let bundle := filter (fun t => nonempty t = true) bundle in
  let bundle := sorted len_le (set_order bundle) in
  take 12 bundle.

End query.
End QueryNormalizer.

(** * app.py *)

(** A DataFrame cell of the text columns: a str, or the missing value. *)
Inductive cell := NaN | Str (s : str).

#[global] Instance cell_eq_dec : EqDecision cell.
Proof. solve_decision. Defined.

(** A DataFrame: its column labels in order and its rows; a row maps each
    label to its cell. Labels are unique, so a frame with two columns of one
    label is outside this type. *)
Record frame := Frame {
  columns : list string;
  rows : list (gmap string cell)
}.

Module App.

(** Reading a label a row does not carry gives the missing value. *)
Definition cell_at (c : string) (r : gmap string cell) : cell :=
  default NaN (r !! c).

(** [df.empty] *)
Definition empty (df : frame) : bool :=
  match columns df, rows df with
  | [], _ | _, [] => true
  | _ :: _, _ :: _ => false
  end.

Definition has_column (c : string) (df : frame) : bool :=
  bool_decide (c ∈ columns df).

(** [df[c] = v] with a scalar [v] *)
Definition assign (c : string) (v : cell) (df : frame) : frame :=
  Frame (if has_column c df then columns df else columns df ++ [c])
        (map (insert c v) (rows df)).

(** A row re-read along a list of labels. *)
Definition reindex (cols : list string) (r : gmap string cell)
  : gmap string cell :=
  list_to_map (map (fun c => (c, cell_at c r)) cols).

(** [df[cols]]: a missing label is a [KeyError]. *)
Definition select (cols : list string) (df : frame) : result frame :=
  if forallb (fun c => has_column c df) cols then
    Ok (Frame cols (map (reindex cols) (rows df)))
  else Raise KeyError.

Definition renamed (mapping : list (string * string)) (c : string) : string :=
  default c (list_to_map (M := gmap string string) mapping !! c).

(** [df.rename(columns=mapping)]. Renaming onto a label the frame keeps
    would give two columns of one label: [NotModelled]. *)
Definition rename (mapping : list (string * string)) (df : frame)
  : result frame :=
  let cols := map (renamed mapping) (columns df) in
  if bool_decide (NoDup cols) then
    Ok (Frame cols
          (map (fun r =>
                  list_to_map
                    (map (fun c => (renamed mapping c, cell_at c r)) (columns df)))
               (rows df)))
  else Raise NotModelled.

(** [for col in cols: if col not in df.columns: df[col] = ""] *)
Definition fill_missing (cols : list string) (df : frame) : frame :=
  foldl (fun df c => if has_column c df then df else assign c (Str []) df)
        df cols.

(** [pd.concat(frames, ignore_index=True)]: the union of the columns in
    order of appearance, missing cells are NaN. *)
Definition union_columns (labels : list (list string)) : list string :=
  foldl (fun acc cols => acc ++ filter (fun c => c ∉ acc) cols) [] labels.

Definition concat (frames : list frame) : frame :=
  let cols := union_columns (map columns frames) in
  Frame cols (frames ≫= fun df => map (reindex cols) (rows df)).

(** Keeping the first row of every key; [seen] holds the keys met. NaN
    counts as equal to NaN, as in [DataFrame.duplicated]. *)
Fixpoint drop_dups (key : gmap string cell -> cell) (seen : list cell)
    (rs : list (gmap string cell)) : list (gmap string cell) :=
  match rs with
  | [] => []
  | r :: rs' =>
      if bool_decide (key r ∈ seen) then drop_dups key seen rs'
      else r :: drop_dups key (key r :: seen) rs'
  end.

(** [df.drop_duplicates(subset=[c]).reset_index(drop=True)] *)
Definition drop_duplicates (c : string) (df : frame) : frame :=
  Frame (columns df) (drop_dups (cell_at c) [] (rows df)).

(** [df.drop(columns=[c])] *)
Definition drop_column (c : string) (df : frame) : frame :=
  Frame (filter (fun c' => c' ≠ c) (columns df)) (map (delete c) (rows df)).

Definition canonical : list string :=
  ["title"; "authors"; "venue"; "pub_year"; "url"; "doi"; "abstract";
   "keywords"; "source"]%string.

Definition keep : list string :=
  ["title"; "authors"; "venue"; "pub_year"; "url"; "doi"; "abstract";
   "keywords"; "source"; "doc_type"; "material_type"]%string.

Section app.
Context `{PyRuntime}.

(** [re.sub(r"\s+", " ", t)]; [in_run] tells that the previous character
    was white space. *)
Fixpoint collapse_spaces (in_run : bool) (t : str) : str :=
  match t with
  | [] => []
  | c :: t' =>
      if isspace c then
        if in_run then collapse_spaces true t' else 32 :: collapse_spaces true t'
      else c :: collapse_spaces false t'
  end.

(** The class [[0-9a-z가-힣 ]] *)
Definition title_char (c : N) : bool :=
  (48 <=? c) && (c <=? 57) || (97 <=? c) && (c <=? 122)
  || (44032 <=? c) && (c <=? 55203) || (c =? 32).

(** A cell that is not a str gives the empty key. *)
Definition normalize_title (t : cell) : str :=
  match t with
  | NaN => []
  | Str t =>
      let t := lower (strip (collapse_spaces false t)) in
      filter (fun c => title_char c = true) t
  end.

(** [Series.astype(str)] on one cell *)
Definition astype_str (c : cell) : str :=
  match c with Str s => s | NaN => lit "nan" end.

(** The first match of [\d{4}] *)
Fixpoint search_year (s : str) : option str :=
  match s with
  | [] => None
  | a :: s' =>
      match s' with
      | b :: c :: d :: _ =>
          if isdecimal a && isdecimal b && isdecimal c && isdecimal d
          then Some [a; b; c; d]
          else search_year s'
      | _ => None
      end
  end.

(** [.str.extract(r"(\d{4})")[0]] on one cell: no match is the missing
    value. *)
Definition extract_year (s : str) : cell :=
  match search_year s with Some y => Str y | None => NaN end.

Definition year_cell (c : cell) : cell := extract_year (astype_str c).

Definition normalize_year (r : gmap string cell) : gmap string cell :=
  <["pub_year" := year_cell (cell_at "pub_year" r)]> r.

Definition title_key (r : gmap string cell) : cell :=
  Str (normalize_title (cell_at "title" r)).

Definition standardize_kci (df_kci : frame) : result frame :=
  let kci := assign "source" (Str (lit "KCI")) df_kci in
  kci ← rename [("journal_name", "venue"); ("authors", "authors");
               ("pub_year", "pub_year"); ("title", "title"); ("url", "url");
               ("doi", "doi"); ("abstract", "abstract");
               ("keywords", "keywords")]%string kci;
  let kci :=
    fill_missing ["authors"; "venue"; "pub_year"; "url"; "doi"; "abstract";
                  "keywords"]%string kci in
  select canonical kci.

Definition standardize_riss (df_riss : frame) : result frame :=
  let riss := assign "source" (Str (lit "RISS")) df_riss in
  riss ← rename [("author", "authors"); ("publisher", "venue")]%string riss;
  let riss := fill_missing ["doi"; "abstract"; "keywords"]%string riss in
  let riss := fill_missing keep riss in
  select keep riss.

(** A frame that is [None] or empty contributes nothing. *)
Definition standardized (standardize : frame -> result frame)
    (df : option frame) : result (list frame) :=
  match df with
  | None => Ok []
  | Some df => if empty df then Ok [] else f ← standardize df; Ok [f]
  end.

Definition dedup (all_df : frame) : frame :=
  let all_df :=
    Frame (columns all_df) (map normalize_year (rows all_df)) in
  let all_df :=
    if has_column "doi" all_df then drop_duplicates "doi" all_df else all_df in
  let all_df :=
    Frame (if has_column "_title_key" all_df then columns all_df
           else columns all_df ++ ["_title_key"%string])
          (map (fun r => <["_title_key" := title_key r]> r) (rows all_df)) in
  drop_column "_title_key" (drop_duplicates "_title_key" all_df).

Definition merge_frames (df_kci df_riss : option frame) : result frame :=
  kci ← standardized standardize_kci df_kci;
  riss ← standardized standardize_riss df_riss;
  match kci ++ riss with
  | [] => Ok (Frame canonical [])
  | frames => Ok (dedup (concat frames))
  end.

End app.
End App.

(** * A runtime for the examples

    It agrees with CPython on the ASCII and Hangul text the examples use:
    the white-space table of [str.isspace], the digits [0-9], lower-casing
    of [A-Z], and a set that lists its elements in order of first
    insertion. *)

Definition sample_isspace (c : N) : bool :=
  (9 <=? c) && (c <=? 13) || (28 <=? c) && (c <=? 32)
  || (c =? 133) || (c =? 160) || (c =? 5760)
  || (8192 <=? c) && (c <=? 8202)
  || (c =? 8232) || (c =? 8233) || (c =? 8239) || (c =? 8287) || (c =? 12288).

Definition sample_isdecimal (c : N) : bool := (48 <=? c) && (c <=? 57).

Definition sample_lower (s : str) : str :=
  map (fun c => if (65 <=? c) && (c <=? 90) then c + 32 else c) s.

Definition sample_repr (v : value) : str :=
  match v with
  | VNone => lit "None"
  | VList [] => lit "[]"
  | VDict [] => lit "{}"
  | _ => lit "<object>"
  end.

Fixpoint first_occurrences (seen l : list str) : list str :=
  match l with
  | [] => []
  | x :: l' =>
      if bool_decide (x ∈ seen) then first_occurrences seen l'
      else x :: first_occurrences (x :: seen) l'
  end.

Lemma first_occurrences_elem seen l x :
  x ∈ first_occurrences seen l <-> x ∈ l /\ x ∉ seen.
Proof.
  revert seen. induction l as [|y l IH]; intros seen; simpl.
  - split; [intros Hx; inversion Hx | intros [Hx _]; inversion Hx].
  - case_bool_decide as Hy.
    + rewrite IH. set_solver.
    + rewrite elem_of_cons, IH. split.
      * intros [-> | [? ?]]; set_solver.
      * intros [[-> | ?]%elem_of_cons ?]; [by left|].
        destruct (decide (x = y)) as [-> | ?]; [by left | right].
        set_solver.
Qed.

Lemma first_occurrences_NoDup seen l : NoDup (first_occurrences seen l).
Proof.
  revert seen. induction l as [|y l IH]; intros seen; simpl.
  - constructor.
  - case_bool_decide; [apply IH|].
    constructor; [|apply IH].
    rewrite first_occurrences_elem. set_solver.
Qed.

#[global] Program Instance sample_runtime : PyRuntime := {|
  isspace := sample_isspace;
  isdecimal := sample_isdecimal;
  lower := sample_lower;
  repr := sample_repr;
  set_order := first_occurrences []
|}.
Next Obligation.
  intros c [? ?]. unfold sample_isdecimal.
  apply andb_true_intro. split; apply N.leb_le; assumption.
Qed.
Next Obligation. intros l. apply first_occurrences_NoDup. Qed.
Next Obligation.
  intros l x. rewrite first_occurrences_elem. set_solver.
Qed.

(** * Properties *)

Lemma bind_Ok {A B} (m : result A) (f : A -> result B) (b : B) :
  (m ≫= f) = Ok b -> exists a, m = Ok a /\ f a = Ok b.
Proof. destruct m as [a|e]; simpl; [eauto | discriminate]. Qed.

Lemma bind_Ok_l {A B} (a : A) (f : A -> result B) : (Ok a ≫= f) = f a.
Proof. reflexivity. Qed.

Tactic Notation "bind_inv" hyp(H) :=
  let a := fresh "x" in
  let Ha := fresh "Hx" in
  apply bind_Ok in H; destruct H as (a & Ha & H); cbv beta zeta in H.

Tactic Notation "bind_inv" hyp(H) "as" ident(a) ident(Ha) :=
  apply bind_Ok in H; destruct H as (a & Ha & H); cbv beta zeta in H.

(** ** Tree flattener *)

Section flattener.
Context `{PyRuntime}.

(** The node carries neither direct text nor an alternate scalar key. *)
Definition no_scalar (d : dict) : Prop :=
  dict_get "text" d = None /\ dict_get "#text" d = None
  /\ dict_get "content" d = None /\ dict_get "value" d = None.

(** More than one child, or a single child with an excluded name. *)
Definition no_descent (d : dict) : Prop :=
  (1 < length d)%nat \/ exists k v, d = [(k, v)] /\ KCI.excluded k = true.

Lemma extract_text_fast_no_descent d :
  no_scalar d -> no_descent d -> KCI._extract_text_fast (VDict d) = [].
Proof.
  intros (H1 & H2 & H3 & H4) Hd. simpl. rewrite H1, H2, H3, H4.
  destruct Hd as [Hlen | (k & v & -> & Hk)].
  - destruct d as [|[k v] [|e d]]; simpl in Hlen; [lia | lia | reflexivity].
  - by rewrite Hk.
Qed.

Lemma extract_text_first_value d k v d' :
  dict_get "text" d = None -> dict_get "#text" d = None ->
  d = (k, v) :: d' ->
  RISS._extract_text (VDict d) = strip (py_str v).
Proof. intros H1 H2 ->. simpl in *. by rewrite H1, H2. Qed.

(** C6, as amended. A node without [text], [#text], [content] and [value]
    that has more than one child, or a single child named [lang], [type] or
    [id], flattens to the empty string in Source A. Source B has no such
    rule: its flattener returns the stripped string form of the node's first
    entry. *)
Theorem extract_text_no_descent d :
  no_scalar d -> no_descent d ->
  KCI._extract_text_fast (VDict d) = []
  /\ exists k v d', d = (k, v) :: d'
       /\ RISS._extract_text (VDict d) = strip (py_str v).
Proof.
  intros Hs Hd. split; [by apply extract_text_fast_no_descent|].
  destruct d as [|[k v] d'].
  - destruct Hd as [Hlen | (k & v & Hd & _)]; [simpl in Hlen; lia | discriminate].
  - exists k, v, d'. split; [reflexivity|].
    destruct Hs as (H1 & H2 & _). by eapply extract_text_first_value.
Qed.

End flattener.

Lemma extract_text_no_descent_witness :
  KCI._extract_text_fast (VDict [("lang"%string, VStr (lit "ko"))]) = []
  /\ RISS._extract_text (VDict [("lang"%string, VStr (lit "ko"))]) = lit "ko".
Proof.
  destruct (extract_text_no_descent [("lang"%string, VStr (lit "ko"))])
    as (HA & k & v & d' & Hd & HB).
  - repeat split; reflexivity.
  - right. exists "lang"%string, (VStr (lit "ko")). split; reflexivity.
  - split; [exact HA|]. rewrite HB. injection Hd as <- <- <-. reflexivity.
Defined.

(** C6 as stated fails for Source B: a node with two children flattens to
    the text of the first one, and a single child named [lang] is read. *)
Lemma extract_text_source_B_counterexample :
  ~ (forall (rt : PyRuntime) (d : dict),
        no_scalar d -> no_descent d ->
        KCI._extract_text_fast (VDict d) = []
        /\ RISS._extract_text (VDict d) = []).
Proof.
  intros Hclaim.
  destruct (Hclaim sample_runtime
              [("a"%string, VStr (lit "x")); ("b"%string, VStr (lit "y"))])
    as [_ HB].
  - repeat split; reflexivity.
  - left. simpl. lia.
  - vm_compute in HB. discriminate HB.
Qed.

(** ** Path extractor *)

(** The walk breaks: the value met at some step is not a map, or a step
    before the last is absent from the map met there. *)
Inductive broken : value -> list string -> Prop :=
| broken_not_map v key path :
    (forall d, v <> VDict d) -> broken v (key :: path)
| broken_absent d key key' path :
    dict_get key d = None -> broken (VDict d) (key :: key' :: path)
| broken_step d key v key' path :
    dict_get key d = Some v -> broken v (key' :: path) ->
    broken (VDict d) (key :: key' :: path).

Section path_extractor.
Context `{PyRuntime}.

Lemma walk_not_map v key keys :
  (forall d, v <> VDict d) -> KCI.walk v (key :: keys) = None.
Proof. intros Hv. destruct v; try reflexivity. by destruct (Hv entries). Qed.

Lemma broken_walk v path :
  broken v path ->
  KCI.walk v (removelast path) = None
  \/ exists cur, KCI.walk v (removelast path) = Some cur
       /\ forall d, cur <> VDict d.
Proof.
  induction 1 as [v key path Hv | d key key' path Hk
                 | d key v key' path Hk Hb IH].
  - destruct path as [|key' path].
    + right. exists v. split; [reflexivity | exact Hv].
    + left. change (removelast (key :: key' :: path))
        with (key :: removelast (key' :: path)).
      by apply walk_not_map.
  - left. change (removelast (key :: key' :: path))
      with (key :: removelast (key' :: path)).
    simpl. by rewrite Hk.
  - change (removelast (key :: key' :: path))
      with (key :: removelast (key' :: path)).
    change (KCI.walk (VDict d) (key :: removelast (key' :: path)))
      with (match dict_get key d with
            | Some v => KCI.walk v (removelast (key' :: path))
            | None => None
            end).
    rewrite Hk. exact IH.
Qed.

Lemma py_last_nonempty {A} (xs : list A) :
  xs <> [] -> exists x, py_last xs = Ok x.
Proof.
  intros Hxs. unfold py_last.
  destruct (last xs) as [x|] eqn:Hl; [by exists x|].
  apply last_None in Hl. contradiction.
Qed.

(** A walk that breaks yields no text. *)
Lemma extract_from_path_broken data path :
  broken data path -> KCI._extract_from_path data path = Ok [].
Proof.
  intros Hb. unfold KCI._extract_from_path.
  destruct (broken_walk data path Hb) as [-> | (cur & -> & Hcur)];
    [reflexivity|].
  destruct cur; try reflexivity. by destruct (Hcur entries).
Qed.

(** With at least one key in the path nothing is raised. *)
Lemma extract_from_path_returns data path :
  path <> [] -> exists texts, KCI._extract_from_path data path = Ok texts.
Proof.
  intros Hp. unfold KCI._extract_from_path.
  destruct (KCI.walk data (removelast path)) as [cur|]; [|by eexists].
  destruct cur; try by eexists.
  destruct (py_last_nonempty path Hp) as [key ->]. simpl.
  destruct (dict_get key entries); by eexists.
Qed.

(** C7. For every tree and every path: when a step before the last is
    absent from the map met there, or the value met at a step is not a map,
    path extraction returns the empty sequence and raises nothing; and a
    path of at least one key never raises. *)
Theorem extract_from_path_total data path :
  (broken data path -> KCI._extract_from_path data path = Ok [])
  /\ (path <> [] -> exists texts, KCI._extract_from_path data path = Ok texts).
Proof.
  split; [apply extract_from_path_broken | apply extract_from_path_returns].
Qed.

End path_extractor.

Lemma extract_from_path_total_witness :
  broken (VDict [("kwd-group"%string, VStr (lit "x"))])
         ["kwd-group"; "kwd"]%string
  /\ KCI._extract_from_path (VDict [("kwd-group"%string, VStr (lit "x"))])
       ["kwd-group"; "kwd"]%string = Ok [].
Proof.
  assert (Hb : broken (VDict [("kwd-group"%string, VStr (lit "x"))])
                      ["kwd-group"; "kwd"]%string).
  { eapply broken_step; [reflexivity|].
    apply broken_not_map. intros d; discriminate. }
  split; [exact Hb|].
  exact (proj1 (extract_from_path_total _ _) Hb).
Defined.

(** The one input on which [_extract_from_path] raises: the empty path on a
    map, where [path[-1]] is evaluated. *)
Example extract_from_path_empty_path :
  KCI._extract_from_path (VDict []) [] = Raise IndexError
  /\ KCI._extract_from_path (VStr (lit "x")) [] = Ok [].
Proof. split; reflexivity. Qed.

(** ** Source A normaliser *)

Section source_A.
Context `{PyRuntime}.

Lemma or_default_nonempty x dflt : dflt <> [] -> KCI.or_default x dflt <> [].
Proof.
  intros Hd. unfold KCI.or_default.
  destruct x; simpl; [exact Hd | discriminate].
Qed.

Lemma no_title_nonempty : KCI.no_title <> [].
Proof. vm_compute. discriminate. Qed.

(** What the title is read from: the first element of a sequence, the
    value itself otherwise. *)
Definition title_node (article_title : value) : value :=
  match article_title with
  | VList (first :: _) => first
  | _ => article_title
  end.

(** C8. In a normalised Source A record the title is the text of the title
    field, or of its first element when the field is a sequence, and the
    placeholder when that text is empty; it is never the empty string. *)
Theorem basic_info_title record article :
  KCI._extract_basic_info record = Ok article ->
  exists article_info title_group article_title,
    py_get record "articleInfo" (VDict []) = Ok article_info
    /\ py_get article_info "title-group" (VDict []) = Ok title_group
    /\ py_get title_group "article-title" (VDict []) = Ok article_title
    /\ article !! "title"%string
       = Some (VStr (let title_text :=
                       KCI._extract_text_fast (title_node article_title) in
                     if nonempty title_text then title_text
                     else lit "제목 없음"))
    /\ field article "title" <> VStr [].
Proof.
  intros Hrec. unfold KCI._extract_basic_info in Hrec.
  bind_inv Hrec as journal_info Hjournal.
  do 6 bind_inv Hrec.
  bind_inv Hrec as article_info Hinfo.
  do 3 bind_inv Hrec.
  bind_inv Hrec as title_group Hgroup.
  bind_inv Hrec as article_title Htitle.
  bind_inv Hrec as title_text Htext.
  repeat bind_inv Hrec.
  injection Hrec as <-.
  assert (Htt : title_text = KCI._extract_text_fast (title_node article_title)).
  { destruct article_title as [| | |[|first rest]|]; simpl in Htext;
      try (by injection Htext as <-); discriminate Htext. }
  assert (Hlook :
    forall m : gmap string value,
      m !! "title"%string = Some (VStr (KCI.or_default title_text KCI.no_title)) ->
      m !! "title"%string
      = Some (VStr (let title_text :=
                      KCI._extract_text_fast (title_node article_title) in
                    if nonempty title_text then title_text
                    else lit "제목 없음"))).
  { intros m ->. cbv zeta. rewrite <- Htt. reflexivity. }
  exists article_info, title_group, article_title.
  split; [exact Hinfo|]. split; [exact Hgroup|]. split; [exact Htitle|].
  match goal with
  | |- ?m !! _ = _ /\ _ =>
      assert (Hm : m !! "title"%string
                   = Some (VStr (KCI.or_default title_text KCI.no_title)))
  end.
  { repeat (rewrite lookup_insert_ne by discriminate).
    apply lookup_insert_eq. }
  split; [by apply Hlook|].
  unfold field. rewrite Hm. simpl. intros [= Hempty].
  by apply (or_default_nonempty title_text KCI.no_title no_title_nonempty).
Qed.

End source_A.

Definition sample_record : value :=
  VDict [ ("articleInfo"%string,
           VDict [ ("article-id"%string, VStr (lit "ART001"));
                   ("title-group"%string,
                    VDict [ ("article-title"%string,
                             VList [ VDict [("lang"%string, VStr (lit "ko"))];
                                     VDict [("text"%string, VStr (lit "Second"))] ]) ]) ]) ].

Lemma basic_info_title_witness :
  exists article,
    KCI._extract_basic_info sample_record = Ok article
    /\ field article "title" = VStr (lit "제목 없음").
Proof.
  destruct (KCI._extract_basic_info sample_record) as [article|e] eqn:Hrec;
    [|vm_compute in Hrec; discriminate Hrec].
  exists article. split; [reflexivity|].
  destruct (basic_info_title sample_record article Hrec)
    as (info & group & title & Hinfo & Hgroup & Htitle & Hlook & _).
  vm_compute in Hinfo. injection Hinfo as <-.
  vm_compute in Hgroup. injection Hgroup as <-.
  vm_compute in Htitle. injection Htitle as <-.
  unfold field. rewrite Hlook. reflexivity.
Defined.

(** ** Detail enrichment *)

(** What enrichment may do to one record: every field is as before, except
    that [keywords] and [abstract] may have gone from an empty value to a
    non-empty one. *)
Definition enriched (a a' : gmap string value) : Prop :=
  forall k : string,
    a' !! k = a !! k
    \/ ((k = "keywords"%string \/ k = "abstract"%string)
        /\ truthy (field a k) = false /\ truthy (field a' k) = true).

(** The detail lookup of record [i] failed: none of its identifiers is a
    key of [details]. *)
Definition lookup_failed (details : KCI.details_map)
    (need : list (nat * value)) (i : nat) : Prop :=
  forall id k, (i, id) ∈ need -> KCI.hash_key id = Ok k ->
               KCI.details_get details k = None.

Section enrichment.
Context `{PyRuntime}.

Lemma enriched_refl a : enriched a a.
Proof. intros k. by left. Qed.

Lemma enriched_trans a b c : enriched a b -> enriched b c -> enriched a c.
Proof.
  intros Hab Hbc k.
  destruct (Hab k) as [Hk1 | (Hk & Ha & Hb)], (Hbc k) as [Hk2 | (Hk' & Hb' & Hc)].
  - left. congruence.
  - right. unfold field in *. rewrite <- Hk1. auto.
  - right. unfold field in *. rewrite Hk2. auto.
  - congruence.
Qed.

Lemma enriched_write a k s :
  k = "keywords"%string \/ k = "abstract"%string ->
  truthy (field a k) = false -> nonempty s = true ->
  enriched a (<[k := VStr s]> a).
Proof.
  intros Hk Ha Hs k'. destruct (decide (k = k')) as [<- | Hne].
  - right. split; [exact Hk|]. split; [exact Ha|].
    unfold field. by rewrite lookup_insert_eq.
  - left. by apply lookup_insert_ne.
Qed.

Lemma all_enriched_refl l : Forall2 enriched l l.
Proof. induction l; constructor; auto using enriched_refl. Qed.

Lemma all_enriched_trans l1 l2 l3 :
  Forall2 enriched l1 l2 -> Forall2 enriched l2 l3 -> Forall2 enriched l1 l3.
Proof. apply Forall2_trans, enriched_trans. Qed.

Lemma all_enriched_insert l i a a' :
  l !! i = Some a -> enriched a a' -> Forall2 enriched l (<[i := a']> l).
Proof.
  intros Hi Ha. rewrite <- (list_insert_id l i a Hi) at 1.
  apply Forall2_insert; [apply all_enriched_refl | exact Ha].
Qed.

Lemma index_Ok {A} (xs : list A) i x : index xs i = Ok x -> xs !! i = Some x.
Proof. unfold index. destruct (xs !! i); [by intros [= ->] | discriminate]. Qed.

(** One write: the list is as before except, possibly, at [i]. *)
Definition writes_at (i : nat) (l l' : list (gmap string value)) : Prop :=
  Forall2 enriched l l' /\ forall j, j <> i -> l' !! j = l !! j.

Lemma writes_at_refl i l : writes_at i l l.
Proof. split; [apply all_enriched_refl | done]. Qed.

Lemma writes_at_insert i l a a' :
  l !! i = Some a -> enriched a a' -> writes_at i l (<[i := a']> l).
Proof.
  intros Hi Ha. split; [by eapply all_enriched_insert|].
  intros j Hj. by apply list_lookup_insert_ne.
Qed.

Lemma writes_at_trans i l1 l2 l3 :
  writes_at i l1 l2 -> writes_at i l2 l3 -> writes_at i l1 l3.
Proof.
  intros [H12 K12] [H23 K23]. split; [by eapply all_enriched_trans|].
  intros j Hj. rewrite K23, K12; done.
Qed.

Lemma enrich_keywords_writes records detail_info i articles articles1 :
  KCI.enrich_keywords records detail_info i articles = Ok articles1 ->
  writes_at i articles articles1.
Proof.
  unfold KCI.enrich_keywords. intros Hk.
  bind_inv Hk as record Hrecord.
  bind_inv Hk as article_info Hinfo.
  bind_inv Hk as enhanced Henh.
  destruct (nonempty enhanced) eqn:Hne;
    [|injection Hk as <-; apply writes_at_refl].
  bind_inv Hk as article Harticle. apply index_Ok in Harticle.
  destruct (truthy (field article "keywords")) eqn:Hold; simpl in Hk;
    injection Hk as <-; [apply writes_at_refl|].
  apply (writes_at_insert i articles article); [exact Harticle|].
  apply enriched_write; auto.
Qed.

Lemma enrich_abstract_writes detail_info i articles articles2 :
  KCI.enrich_abstract detail_info i articles = Ok articles2 ->
  writes_at i articles articles2.
Proof.
  unfold KCI.enrich_abstract. intros Ha.
  bind_inv Ha as article Harticle. apply index_Ok in Harticle.
  destruct (truthy (field article "abstract")) eqn:Hold; simpl in Ha;
    [injection Ha as <-; apply writes_at_refl|].
  bind_inv Ha as info Hinfo.
  destruct (nonempty (KCI._extract_abstract_optimized info)) eqn:Hne;
    injection Ha as <-; [|apply writes_at_refl].
  apply (writes_at_insert i articles article); [exact Harticle|].
  apply enriched_write; auto.
Qed.

Lemma enrich_one_writes records details i article_id articles :
  writes_at i articles
    (fst (KCI.enrich_one records details i article_id articles)).
Proof.
  unfold KCI.enrich_one.
  destruct (KCI.hash_key article_id) as [k|e]; [|apply writes_at_refl].
  destruct (KCI.details_get details k) as [detail_info|];
    [|apply writes_at_refl].
  destruct (KCI.enrich_keywords records detail_info i articles)
    as [articles1|e] eqn:Hk; [|apply writes_at_refl].
  apply enrich_keywords_writes in Hk.
  destruct (KCI.enrich_abstract detail_info i articles1)
    as [articles2|e] eqn:Ha; simpl; [|exact Hk].
  apply enrich_abstract_writes in Ha. by eapply writes_at_trans.
Qed.

Lemma enrich_one_failed records details i article_id articles :
  (forall k, KCI.hash_key article_id = Ok k ->
             KCI.details_get details k = None) ->
  fst (KCI.enrich_one records details i article_id articles) = articles.
Proof.
  intros Hfail. unfold KCI.enrich_one.
  destruct (KCI.hash_key article_id) as [k|e]; [|reflexivity].
  by rewrite (Hfail k eq_refl).
Qed.

(** C10. The enrichment stage changes a record only in [keywords] and
    [abstract], and there only from an empty value to a non-empty one; every
    other field of every record is as before, and a record whose detail
    lookup failed is unchanged. *)
Theorem enrichment_frame records details need articles :
  let articles' := fst (KCI.enrich_details records details need articles) in
  Forall2 enriched articles articles'
  /\ forall i, lookup_failed details need i -> articles' !! i = articles !! i.
Proof.
  revert articles. induction need as [|[j article_id] need IH];
    intros articles; simpl.
  - split; [apply all_enriched_refl | done].
  - pose proof (enrich_one_writes records details j article_id articles)
      as [Hen Hother].
    pose proof (enrich_one_failed records details j article_id articles)
      as Hfail.
    destruct (KCI.enrich_one records details j article_id articles)
      as [articles1 [e|]]; simpl in *.
    + split; [exact Hen|]. intros i Hi.
      destruct (decide (i = j)) as [-> | Hne]; [|by apply Hother].
      rewrite Hfail; [done|]. intros k. apply Hi. by left.
    + destruct (IH articles1) as [IH1 IH2]. split.
      * by eapply all_enriched_trans.
      * intros i Hi. rewrite IH2.
        -- destruct (decide (i = j)) as [-> | Hne]; [|by apply Hother].
           rewrite Hfail; [done|]. intros k. apply Hi. by left.
        -- intros id k Hin. apply Hi. by right.
Qed.

End enrichment.

Definition sample_records : list value :=
  [ VDict [("articleInfo"%string, VDict [("article-id"%string, VStr (lit "A1"))])];
    VDict [("articleInfo"%string, VDict [("article-id"%string, VStr (lit "A2"))])] ].

Definition sample_detail : value :=
  VDict [("outputData"%string,
    VDict [("record"%string,
      VDict [("articleInfo"%string,
        VDict [ ("keyword-group"%string,
                 VDict [("keyword"%string,
                   VList [ VDict [("text"%string, VStr (lit "labour"))];
                           VDict [("text"%string, VStr (lit "youth"))] ])]);
                ("abstract"%string,
                 VDict [("text"%string, VStr (lit "New abstract"))]) ])])])].

Definition sample_details : KCI.details_map := [(KCI.HStr (lit "A1"), sample_detail)].

Definition sample_need : list (nat * value) :=
  [(0%nat, VStr (lit "A1")); (1%nat, VStr (lit "A2"))].

Definition sample_articles : list (gmap string value) :=
  [ <["title" := VStr (lit "One")]>
      (<["keywords" := VStr []]> (<["abstract" := VStr (lit "Kept")]> ∅));
    <["title" := VStr (lit "Two")]>
      (<["keywords" := VStr []]> (<["abstract" := VStr []]> ∅)) ]%string.

Lemma enrichment_frame_witness :
  lookup_failed sample_details sample_need 1
  /\ fst (KCI.enrich_details sample_records sample_details sample_need
            sample_articles) !! 1%nat
     = sample_articles !! 1%nat.
Proof.
  assert (Hfail : lookup_failed sample_details sample_need 1).
  { intros id k Hin Hk. unfold sample_need in Hin.
    apply elem_of_cons in Hin as [[=] | Hin].
    apply elem_of_cons in Hin as [[= ->] | Hin]; [|inversion Hin].
    injection Hk as <-. reflexivity. }
  split; [exact Hfail|].
  exact (proj2 (enrichment_frame sample_records sample_details sample_need
                  sample_articles) 1%nat Hfail).
Defined.

(** The record whose lookup succeeded gets its empty [keywords] filled and
    keeps its non-empty [abstract]. *)
Example enrichment_fills_empty_only :
  (fun a => (field a "keywords", field a "abstract", field a "title"))
    <$> fst (KCI.enrich_details sample_records sample_details sample_need
               sample_articles) !! 0%nat
  = Some (VStr (lit "labour; youth"), VStr (lit "Kept"), VStr (lit "One")).
Proof. vm_compute. reflexivity. Qed.

(** ** Source B normaliser *)

Section source_B.
Context `{PyRuntime}.

Lemma text_at_dict record key title :
  RISS.text_at record key = Ok title -> exists entries, record = VDict entries.
Proof. destruct record; try discriminate. by eexists. Qed.

Lemma text_at_total entries key :
  RISS.text_at (VDict entries) key
  = Ok (RISS._extract_text (default (VStr []) (dict_get key entries))).
Proof. reflexivity. Qed.

(** A record that is a dict always gives an article, whose title is the
    extracted title. *)
Lemma article_of_record_title record title :
  RISS.text_at record "riss.title" = Ok title ->
  exists article,
    RISS.article_of_record record = Ok article
    /\ field article "title" = VStr title.
Proof.
  intros Ht. destruct (text_at_dict _ _ _ Ht) as [entries ->].
  rewrite text_at_total in Ht. injection Ht as Ht.
  unfold RISS.article_of_record. rewrite !text_at_total. simpl.
  eexists. split; [reflexivity|].
  unfold field. rewrite lookup_fmap.
  repeat (rewrite lookup_insert_ne by discriminate).
  rewrite lookup_insert_eq. simpl. by rewrite Ht.
Qed.

Lemma records_loop_titles records article :
  article ∈ RISS.records_loop records -> truthy (field article "title") = true.
Proof.
  induction records as [|record records IH]; simpl; [by inversion 1|].
  destruct (RISS.article_of_record record) as [a|e]; [|exact IH].
  destruct (truthy (field a "title")) eqn:Ha; [|exact IH].
  intros [-> | Hin]%elem_of_cons; auto.
Qed.

Lemma records_loop_keeps records record article :
  record ∈ records -> RISS.article_of_record record = Ok article ->
  truthy (field article "title") = true ->
  article ∈ RISS.records_loop records.
Proof.
  intros Hin Ha Ht. induction records as [|r records IH]; [by inversion Hin|].
  simpl. apply elem_of_cons in Hin as [<- | Hin].
  - rewrite Ha, Ht. by left.
  - specialize (IH Hin).
    destruct (RISS.article_of_record r) as [a|e]; [|exact IH].
    destruct (truthy (field a "title")); [by right | exact IH].
Qed.

(** The response passes the head checks: it has a [head] that is a map
    whose error code reads "0", and a [metadata]. *)
Definition accepted (d : dict) (metadata : value) : Prop :=
  exists head_entries,
    dict_get "head" d = Some (VDict head_entries)
    /\ dict_get "metadata" d = Some metadata
    /\ RISS._extract_text (default (VStr []) (dict_get "Error" head_entries))
       = lit "0".

Lemma accepted_output d metadata records :
  accepted d metadata -> iter_records metadata = Ok records ->
  RISS._extract_articles_from_response (VDict d) = RISS.records_loop records.
Proof.
  intros (head_entries & Hh & Hm & He) Hr.
  unfold RISS._extract_articles_from_response. rewrite Hh, Hm.
  unfold RISS.articles_of_envelope. rewrite !text_at_total. simpl.
  rewrite He. rewrite decide_True by reflexivity. by rewrite Hr.
Qed.

(** C9, as amended. In a response that passes the head checks, a record is
    left out of the output exactly when its extracted title is empty; every
    record with a non-empty title is in the output. *)
Theorem record_kept_iff_title d metadata records record title :
  accepted d metadata ->
  iter_records metadata = Ok records ->
  record ∈ records ->
  RISS.text_at record "riss.title" = Ok title ->
  exists article,
    RISS.article_of_record record = Ok article
    /\ field article "title" = VStr title
    /\ (article ∈ RISS._extract_articles_from_response (VDict d)
        <-> title <> []).
Proof.
  intros Hacc Hr Hin Ht.
  destruct (article_of_record_title record title Ht) as (article & Ha & Hf).
  exists article. split; [exact Ha|]. split; [exact Hf|].
  rewrite (accepted_output d metadata records Hacc Hr). split.
  - intros Hout%records_loop_titles. rewrite Hf in Hout.
    intros ->. discriminate Hout.
  - intros Hne. eapply records_loop_keeps; [exact Hin | exact Ha |].
    rewrite Hf. by destruct title.
Qed.

End source_B.

Definition sample_response (error : string) : dict :=
  [ ("head"%string, VDict [("Error"%string, VDict [("text"%string, VStr (lit error))])]);
    ("metadata"%string,
     VList [ VDict [("riss.title"%string, VDict [("text"%string, VStr (lit "Thesis"))])];
             VDict [("riss.author"%string, VDict [("text"%string, VStr (lit "Kim"))])] ]) ].

Definition sample_metadata : value :=
  default VNone (dict_get "metadata" (sample_response "0")).

Lemma record_kept_iff_title_witness :
  exists article,
    RISS.article_of_record
      (VDict [("riss.title"%string, VDict [("text"%string, VStr (lit "Thesis"))])])
    = Ok article
    /\ article ∈ RISS._extract_articles_from_response
                   (VDict (sample_response "0")).
Proof.
  destruct (record_kept_iff_title (sample_response "0") sample_metadata
              [ VDict [("riss.title"%string, VDict [("text"%string, VStr (lit "Thesis"))])];
                VDict [("riss.author"%string, VDict [("text"%string, VStr (lit "Kim"))])] ]
              (VDict [("riss.title"%string, VDict [("text"%string, VStr (lit "Thesis"))])])
              (lit "Thesis"))
    as (article & Ha & _ & Hiff).
  - eexists. repeat split; reflexivity.
  - reflexivity.
  - by left.
  - reflexivity.
  - exists article. split; [exact Ha|]. apply Hiff. discriminate.
Defined.

(** C9 as stated fails: a response whose head reports an error gives no
    record at all, whatever the titles. *)
Lemma record_kept_counterexample :
  ~ (forall (rt : PyRuntime) d metadata records record title,
        dict_get "metadata" d = Some metadata ->
        iter_records metadata = Ok records ->
        record ∈ records ->
        RISS.text_at record "riss.title" = Ok title ->
        exists article,
          RISS.article_of_record record = Ok article
          /\ (article ∈ RISS._extract_articles_from_response (VDict d)
              <-> title <> [])).
Proof.
  intros Hclaim.
  destruct (Hclaim sample_runtime (sample_response "100")
              sample_metadata
              [ VDict [("riss.title"%string, VDict [("text"%string, VStr (lit "Thesis"))])];
                VDict [("riss.author"%string, VDict [("text"%string, VStr (lit "Kim"))])] ]
              (VDict [("riss.title"%string, VDict [("text"%string, VStr (lit "Thesis"))])])
              (lit "Thesis"))
    as (article & _ & Hiff); [reflexivity | reflexivity | by left | reflexivity |].
  assert (Hin : article ∈ RISS._extract_articles_from_response
                            (VDict (sample_response "100"))).
  { apply Hiff. discriminate. }
  vm_compute in Hin. inversion Hin.
Qed.

(** ** Query bundle *)

Section insertion_sort.
Context {A : Type} (le : A -> A -> bool).
Hypothesis le_total : forall x y, le x y = false -> le y x = true.
Hypothesis le_trans : forall x y z, le x y = true -> le y z = true -> le x z = true.

Lemma insert_sorted_perm x l : insert_sorted le x l ≡ₚ x :: l.
Proof.
  induction l as [|y l IH]; simpl; [done|].
  destruct (le x y); [done|]. rewrite IH. apply Permutation_swap.
Qed.

Lemma sorted_perm l : sorted le l ≡ₚ l.
Proof.
  induction l as [|x l IH]; simpl; [done|].
  by rewrite insert_sorted_perm, IH.
Qed.

Lemma insert_sorted_ordered x l :
  StronglySorted (fun a b => le a b = true) l ->
  StronglySorted (fun a b => le a b = true) (insert_sorted le x l).
Proof.
  induction 1 as [|y l Hl IH Hy]; simpl.
  - repeat constructor.
  - destruct (le x y) eqn:Hxy.
    + constructor; [by constructor|].
      constructor; [exact Hxy|].
      eapply Forall_impl; [exact Hy|]. intros z Hz. by eapply le_trans.
    + constructor; [exact IH|].
      rewrite insert_sorted_perm. constructor; [by apply le_total | exact Hy].
Qed.

Lemma sorted_ordered l :
  StronglySorted (fun a b => le a b = true) (sorted le l).
Proof.
  induction l as [|x l IH]; simpl; [constructor|].
  by apply insert_sorted_ordered.
Qed.

End insertion_sort.

Lemma StronglySorted_weaken {A} (R Q : A -> A -> Prop) l :
  (forall x y, R x y -> Q x y) -> StronglySorted R l -> StronglySorted Q l.
Proof.
  intros HRQ. induction 1 as [|x l Hl IH Hx]; constructor; [exact IH|].
  eapply Forall_impl; [exact Hx|]. auto.
Qed.

Lemma StronglySorted_take {A} (R : A -> A -> Prop) n l :
  StronglySorted R l -> StronglySorted R (take n l).
Proof.
  intros Hl. revert n. induction Hl as [|x l Hl IH Hx]; intros [|n]; simpl;
    try constructor; [apply IH|].
  apply Forall_take, Hx.
Qed.

Section query_bundle.
Context `{PyRuntime}.

(** Every term the bundle is built from, before the set is taken. *)
Definition all_terms (mapping_df : list QueryNormalizer.mapping_row)
    (map_with_ai : str -> list str) (query : str) : list str :=
  filter (fun t => nonempty t = true)
    ([query] ++ QueryNormalizer.map_with_csv mapping_df query
             ++ map_with_ai query).

(** The distinct terms other than the query that are no longer than it. *)
Definition rivals (query : str) (terms : list str) : list str :=
  filter (fun t => t <> query /\ (length t <= length query)%nat)
         (remove_dups terms).

Lemma normalize_eq mapping_df map_with_ai query :
  QueryNormalizer.normalize mapping_df map_with_ai query
  = take 12 (sorted len_le (set_order (all_terms mapping_df map_with_ai query))).
Proof. reflexivity. Qed.

Lemma len_le_total x y : len_le x y = false -> len_le y x = true.
Proof. unfold len_le. rewrite Nat.leb_gt, Nat.leb_le. lia. Qed.

Lemma len_le_trans x y z :
  len_le x y = true -> len_le y z = true -> len_le x z = true.
Proof. unfold len_le. rewrite !Nat.leb_le. lia. Qed.

Lemma take_keeps_early {A} (l1 l2 : list A) x n :
  (length l1 < n)%nat -> x ∈ take n (l1 ++ x :: l2).
Proof.
  intros Hn. rewrite take_app. apply elem_of_app. right.
  destruct (n - length l1)%nat as [|m] eqn:Hm; [lia|]. simpl. by left.
Qed.

Lemma sorted_before {A} (R : A -> A -> Prop) (l1 l2 : list A) x t :
  StronglySorted R (l1 ++ x :: l2) -> t ∈ l1 -> R t x.
Proof.
  induction l1 as [|a l1 IH]; intros Hs Ht; [inversion Ht|].
  simpl in Hs. apply StronglySorted_inv in Hs as [Hs Ha].
  apply elem_of_cons in Ht as [-> | Ht]; [|by apply IH].
  rewrite Forall_app, Forall_cons in Ha. by destruct Ha as (_ & Ha & _).
Qed.

Lemma query_position terms query l1 l2 :
  sorted len_le (set_order terms) = l1 ++ query :: l2 ->
  (length l1 <= length (rivals query terms))%nat.
Proof.
  intros Hsplit.
  pose proof (sorted_ordered len_le len_le_total len_le_trans (set_order terms))
    as Hsorted.
  pose proof (sorted_perm len_le (set_order terms)) as Hperm.
  rewrite Hsplit in Hsorted, Hperm.
  assert (Hnd : NoDup (l1 ++ query :: l2)).
  { rewrite Hperm. apply set_order_NoDup. }
  apply NoDup_app in Hnd as (Hnd1 & Hnot & _).
  apply submseteq_length, NoDup_submseteq; [exact Hnd1|].
  intros t Ht. unfold rivals. apply list_elem_of_filter. split.
  - split.
    + intros ->. apply (Hnot query Ht). by left.
    + apply Nat.leb_le.
      exact (sorted_before (fun a b => len_le a b = true) l1 l2 query t
               Hsorted Ht).
  - apply elem_of_remove_dups. apply set_order_elem.
    rewrite <- Hperm. apply elem_of_app. by left.
Qed.

(** C4, as amended. The bundle has at most 12 terms, no duplicates, and is
    sorted by non-decreasing length; it contains the original query when the
    query is not empty and fewer than 12 other distinct terms are no longer
    than it. *)
Theorem normalize_bundle mapping_df map_with_ai query :
  let bundle := QueryNormalizer.normalize mapping_df map_with_ai query in
  (length bundle <= 12)%nat
  /\ NoDup bundle
  /\ StronglySorted (fun s t => (length s <= length t)%nat) bundle
  /\ (query <> [] ->
      (length (rivals query (all_terms mapping_df map_with_ai query)) < 12)%nat ->
      query ∈ bundle).
Proof.
  cbv zeta. rewrite normalize_eq.
  set (terms := all_terms mapping_df map_with_ai query).
  pose proof (sorted_perm len_le (set_order terms)) as Hperm.
  split; [rewrite length_take; lia|].
  split.
  { apply (sublist_NoDup _ (sorted len_le (set_order terms)));
      [|apply sublist_take].
    rewrite Hperm. apply set_order_NoDup. }
  split.
  { apply StronglySorted_take.
    eapply StronglySorted_weaken;
      [|apply (sorted_ordered len_le len_le_total len_le_trans)].
    intros s t Hst. by apply Nat.leb_le. }
  intros Hq Hrivals.
  assert (Hin : query ∈ sorted len_le (set_order terms)).
  { rewrite Hperm. apply set_order_elem. unfold terms, all_terms.
    apply list_elem_of_filter. split; [by destruct query|].
    apply elem_of_app. left. by left. }
  apply list_elem_of_split in Hin as (l1 & l2 & Hsplit).
  rewrite Hsplit. apply take_keeps_early.
  pose proof (query_position terms query l1 l2 Hsplit). lia.
Qed.

End query_bundle.

Definition sample_mapping : list QueryNormalizer.mapping_row :=
  [ {| QueryNormalizer.user_pattern := lit "Credit";
       QueryNormalizer.canonical_term := lit "신용";
       QueryNormalizer.synonyms := lit "대출 | credit constraint" |} ].

Definition sample_ai (terms : list string) (query : str) : list str :=
  map lit terms.

Lemma normalize_bundle_witness :
  lit "youth credit" ∈
    QueryNormalizer.normalize sample_mapping (sample_ai ["loan"%string])
      (lit "youth credit").
Proof.
  apply (normalize_bundle sample_mapping (sample_ai ["loan"%string])
           (lit "youth credit")).
  - discriminate.
  - vm_compute. lia.
Defined.

Example normalize_sample :
  QueryNormalizer.normalize sample_mapping (sample_ai ["loan"%string])
    (lit "youth credit")
  = [lit "대출"; lit "신용"; lit "loan"; lit "youth credit";
     lit "credit constraint"].
Proof. vm_compute. reflexivity. Qed.

(** C4 as stated fails: twelve shorter terms push the original query out of
    the bundle. *)
Lemma normalize_drops_query_counterexample :
  ~ (forall (rt : PyRuntime) mapping_df map_with_ai query,
        let bundle := QueryNormalizer.normalize mapping_df map_with_ai query in
        (length bundle <= 12)%nat
        /\ NoDup bundle
        /\ StronglySorted (fun s t => (length s <= length t)%nat) bundle
        /\ query ∈ bundle).
Proof.
  intros Hclaim.
  destruct (Hclaim sample_runtime []
              (sample_ai ["a"; "b"; "c"; "d"; "e"; "f"; "g"; "h"; "i"; "j";
                          "k"; "l"]%string)
              (lit "long query")) as (_ & _ & _ & Hin).
  assert (Hout : bool_decide
            (lit "long query" ∈
               QueryNormalizer.normalize []
                 (sample_ai ["a"; "b"; "c"; "d"; "e"; "f"; "g"; "h"; "i"; "j";
                             "k"; "l"]%string)
                 (lit "long query")) = false)
    by (vm_compute; reflexivity).
  apply bool_decide_eq_false in Hout. exact (Hout Hin).
Qed.

(** ** Year normalisation *)

Section year.
Context `{PyRuntime}.

(** Four decimal digits. *)
Definition digit_run (y : str) : Prop :=
  length y = 4%nat /\ Forall (fun c => isdecimal c = true) y.

(** The string holds a run of four digits somewhere. *)
Definition has_run (s : str) : Prop :=
  exists pre y post, s = pre ++ y ++ post /\ digit_run y.

(** [\d{4}] matches at the start of the string. *)
Definition run_here (s : str) : bool :=
  match s with
  | a :: b :: c :: d :: _ =>
      isdecimal a && isdecimal b && isdecimal c && isdecimal d
  | _ => false
  end.

Lemma search_year_cons a s :
  App.search_year (a :: s)
  = if run_here (a :: s) then Some (take 4 (a :: s)) else App.search_year s.
Proof.
  destruct s as [|b [|c [|d s]]]; reflexivity.
Qed.

Lemma run_here_spec s :
  run_here s = true <-> exists y post, s = y ++ post /\ digit_run y.
Proof.
  split.
  - destruct s as [|a [|b [|c [|d s]]]]; try discriminate. simpl.
    rewrite !andb_true_iff. intros (((Ha & Hb) & Hc) & Hd).
    exists [a; b; c; d], s. split; [reflexivity|].
    split; [reflexivity | by repeat constructor].
  - intros (y & post & -> & Hlen & Hy).
    destruct y as [|a [|b [|c [|d [|e y]]]]]; try discriminate Hlen.
    apply Forall_cons in Hy as [Ha Hy]. apply Forall_cons in Hy as [Hb Hy].
    apply Forall_cons in Hy as [Hc Hy]. apply Forall_cons in Hy as [Hd _].
    simpl. by rewrite Ha, Hb, Hc, Hd.
Qed.

Lemma has_run_nil : ~ has_run [].
Proof.
  intros (pre & y & post & Hs & Hlen & _).
  destruct pre; [|discriminate Hs]. destruct y; discriminate.
Qed.

Lemma has_run_cons a s :
  has_run (a :: s) <-> run_here (a :: s) = true \/ has_run s.
Proof.
  split.
  - intros (pre & y & post & Hs & Hy). destruct pre as [|a' pre].
    + left. apply run_here_spec. by exists y, post.
    + right. injection Hs as -> ->. by exists pre, y, post.
  - intros [(y & post & Hs & Hy)%run_here_spec | (pre & y & post & -> & Hy)].
    + by exists [], y, post.
    + by exists (a :: pre), y, post.
Qed.

Lemma run_here_app s t : run_here s = true -> run_here (s ++ t) = true.
Proof. destruct s as [|a [|b [|c [|d s]]]]; try discriminate. done. Qed.

Lemma search_year_None s : App.search_year s = None <-> ~ has_run s.
Proof.
  induction s as [|a s IH].
  - split; [intros _; apply has_run_nil | reflexivity].
  - rewrite search_year_cons, has_run_cons.
    destruct (run_here (a :: s)) eqn:Hr.
    + split; [discriminate | intros Hn; destruct Hn; by left].
    + rewrite IH. split; [intros Hn [?|?]; [discriminate | done] | auto].
Qed.

(** The match found is the first one: no run starts before it. *)
Lemma search_year_Some s y :
  App.search_year s = Some y ->
  exists pre post,
    s = pre ++ y ++ post /\ digit_run y /\ ~ has_run (pre ++ take 3 y).
Proof.
  induction s as [|a s IH]; [discriminate|].
  rewrite search_year_cons. destruct (run_here (a :: s)) eqn:Hr.
  - intros [= Heq]. change (take 4 (a :: s) = y) in Heq.
    apply run_here_spec in Hr as Hr'.
    destruct Hr' as (y' & post & Hs & Hlen & Hy).
    rewrite Hs, take_app_length' in Heq by (symmetry; exact Hlen). subst y'.
    rewrite Hs. exists [], post. split; [reflexivity|]. split; [by split|].
    intros (pre' & y' & post' & Hs' & Hlen' & _).
    apply (f_equal length) in Hs'. simpl in Hs'.
    rewrite length_take, !length_app in Hs'. lia.
  - intros Hy. destruct (IH Hy) as (pre & post & -> & Hrun & Hfirst).
    exists (a :: pre), post. split; [reflexivity|]. split; [exact Hrun|].
    simpl. rewrite has_run_cons. intros [Hhere | Hlater]; [|done].
    apply (run_here_app _ (drop 3 y ++ post)) in Hhere.
    simpl in Hhere. rewrite <- app_assoc, (app_assoc (take 3 y)) in Hhere.
    rewrite take_drop in Hhere. simpl in Hr. congruence.
Qed.

Lemma search_year_digits a b c d s :
  isdecimal a = true -> isdecimal b = true -> isdecimal c = true ->
  isdecimal d = true ->
  App.search_year (a :: b :: c :: d :: s) = Some [a; b; c; d].
Proof. intros Ha Hb Hc Hd. simpl. by rewrite Ha, Hb, Hc, Hd. Qed.

Lemma year_cell_run y : digit_run y -> App.year_cell (Str y) = Str y.
Proof.
  intros [Hlen Hy].
  destruct y as [|a [|b [|c [|d [|e y]]]]]; try discriminate Hlen.
  apply Forall_cons in Hy as [Ha Hy]. apply Forall_cons in Hy as [Hb Hy].
  apply Forall_cons in Hy as [Hc Hy]. apply Forall_cons in Hy as [Hd _].
  unfold App.year_cell, App.extract_year. simpl App.astype_str.
  by rewrite search_year_digits.
Qed.

(** What [year_cell] returns is left alone by a second pass. *)
Lemma year_cell_idem c : App.year_cell (App.year_cell c) = App.year_cell c.
Proof.
  unfold App.year_cell at 2 3, App.extract_year.
  destruct (App.search_year (App.astype_str c)) as [y|] eqn:Hy.
  - apply search_year_Some in Hy as (_ & _ & _ & Hrun & _).
    by apply year_cell_run.
  - reflexivity.
Qed.

Lemma isdecimal_2023 :
  isdecimal 50 = true /\ isdecimal 48 = true /\ isdecimal 51 = true.
Proof. repeat split; apply isdecimal_ascii; lia. Qed.

(** C5, as amended. Year normalisation keeps the first run of four digits
    of [pub_year]: "2023년", "2023.05" and "2023" give "2023". A value without
    such a run, "n/a" for one, gives the missing value (NaN), which is not
    the empty string, and raises nothing. *)
Theorem year_normalization :
  App.year_cell (Str (lit "2023년")) = Str (lit "2023")
  /\ App.year_cell (Str (lit "2023.05")) = Str (lit "2023")
  /\ App.year_cell (Str (lit "2023")) = Str (lit "2023")
  /\ App.year_cell (Str (lit "n/a")) = NaN
  /\ (forall s, ~ has_run s -> App.year_cell (Str s) = NaN)
  /\ (forall s y, App.year_cell (Str s) = Str y ->
        exists pre post,
          s = pre ++ y ++ post /\ digit_run y /\ ~ has_run (pre ++ take 3 y))
  /\ (forall r : gmap string cell,
        App.cell_at "pub_year" (App.normalize_year r)
        = App.year_cell (App.cell_at "pub_year" r)).
Proof.
  destruct isdecimal_2023 as (H2 & H0 & H3).
  assert (Hex : forall s,
    App.year_cell (Str (50 :: 48 :: 50 :: 51 :: s)) = Str [50; 48; 50; 51]).
  { intros s. unfold App.year_cell, App.extract_year. simpl App.astype_str.
    by rewrite search_year_digits. }
  split; [exact (Hex [45380])|].
  split; [exact (Hex [46; 48; 53])|].
  split; [exact (Hex [])|].
  split; [reflexivity|].
  split.
  { intros s Hs%search_year_None. unfold App.year_cell, App.extract_year.
    simpl App.astype_str. by rewrite Hs. }
  split.
  { intros s y. unfold App.year_cell, App.extract_year. simpl App.astype_str.
    destruct (App.search_year s) as [y'|] eqn:Hy; [|discriminate].
    intros [= <-]. by apply search_year_Some. }
  intros r. unfold App.normalize_year, App.cell_at at 1.
  by rewrite lookup_insert_eq.
Qed.

End year.

Lemma has_run_length `{PyRuntime} s : has_run s -> (4 <= length s)%nat.
Proof.
  intros (pre & y & post & -> & Hlen & _). rewrite !length_app. lia.
Qed.

Lemma year_normalization_witness :
  ~ has_run (lit "n/a") /\ App.year_cell (Str (lit "n/a")) = NaN.
Proof.
  assert (Hno : ~ has_run (lit "n/a")).
  { intros Hr%has_run_length. vm_compute in Hr. lia. }
  split; [exact Hno|].
  exact (proj1 (proj2 (proj2 (proj2 (proj2 year_normalization))))
           (lit "n/a") Hno).
Defined.

(** C5 as stated fails: without a run of four digits the field is the
    missing value, not the empty string. *)
Lemma year_not_empty_string_counterexample :
  ~ (forall (rt : PyRuntime) (s : str),
        ~ has_run s -> App.year_cell (Str s) = Str []).
Proof.
  intros Hclaim.
  assert (Hno : ~ has_run (lit "n/a")).
  { intros Hr%has_run_length. vm_compute in Hr. lia. }
  specialize (Hclaim sample_runtime (lit "n/a") Hno).
  vm_compute in Hclaim. discriminate Hclaim.
Qed.

(** ** Merge and dedup *)

Section frames.

Lemma lookup_reindex cols (r : gmap string cell) c :
  App.reindex cols r !! c
  = if decide (c ∈ cols) then Some (App.cell_at c r) else None.
Proof.
  unfold App.reindex. induction cols as [|c0 cols IH].
  - destruct (decide (c ∈ [])) as [Hin|_]; [by apply not_elem_of_nil in Hin|].
    apply lookup_empty.
  - change (list_to_map (map (fun c => (c, App.cell_at c r)) (c0 :: cols)))
      with (<[c0 := App.cell_at c0 r]>
              (list_to_map (M := gmap string cell)
                 (map (fun c => (c, App.cell_at c r)) cols))).
    destruct (decide (c0 = c)) as [-> | Hne].
    + rewrite lookup_insert_eq. rewrite decide_True; [done | by left].
    + rewrite lookup_insert_ne by done. rewrite IH.
      destruct (decide (c ∈ cols)) as [Hin | Hnin].
      * rewrite decide_True; [done | by right].
      * rewrite decide_False; [done|].
        intros [-> | ?]%elem_of_cons; done.
Qed.

Lemma cell_at_reindex cols (r : gmap string cell) c :
  c ∈ cols -> App.cell_at c (App.reindex cols r) = App.cell_at c r.
Proof.
  intros Hc. unfold App.cell_at at 1. rewrite lookup_reindex.
  by rewrite decide_True.
Qed.

Lemma reindex_ext cols (r r' : gmap string cell) :
  (forall c, c ∈ cols -> App.cell_at c r = App.cell_at c r') ->
  App.reindex cols r = App.reindex cols r'.
Proof.
  intros Hext. apply map_eq. intros c. rewrite !lookup_reindex.
  destruct (decide (c ∈ cols)); [by rewrite Hext | done].
Qed.

Lemma reindex_reindex cols cols' (r : gmap string cell) :
  (forall c, c ∈ cols -> c ∈ cols') ->
  App.reindex cols (App.reindex cols' r) = App.reindex cols r.
Proof.
  intros Hsub. apply reindex_ext. intros c Hc.
  apply cell_at_reindex. by apply Hsub.
Qed.

Lemma cell_at_insert_ne c c' v (r : gmap string cell) :
  c' <> c -> App.cell_at c (<[c' := v]> r) = App.cell_at c r.
Proof. intros Hne. unfold App.cell_at. by rewrite lookup_insert_ne. Qed.

Lemma cell_at_insert_eq c v (r : gmap string cell) :
  App.cell_at c (<[c := v]> r) = v.
Proof. unfold App.cell_at. by rewrite lookup_insert_eq. Qed.

(** *** Dropping duplicates *)

Lemma drop_dups_elem key seen rs r :
  r ∈ App.drop_dups key seen rs -> r ∈ rs /\ key r ∉ seen.
Proof.
  revert seen. induction rs as [|r0 rs IH]; intros seen; simpl;
    [by inversion 1|].
  case_bool_decide as Hseen.
  - intros [? ?]%IH. split; [by right | done].
  - intros [-> | [? Hn]%IH]%elem_of_cons.
    + split; [by left | done].
    + split; [by right|]. intros ?. apply Hn. by right.
Qed.

(** The keys of the rows kept are pairwise distinct. *)
Lemma drop_dups_NoDup key seen rs :
  NoDup (map key (App.drop_dups key seen rs)).
Proof.
  revert seen. induction rs as [|r0 rs IH]; intros seen; simpl;
    [constructor|].
  case_bool_decide as Hseen; [apply IH|].
  simpl. constructor; [|apply IH].
  intros (r & Hr & Hin)%list_elem_of_fmap.
  apply drop_dups_elem in Hin as [_ Hn]. apply Hn. rewrite Hr. by left.
Qed.

(** Dropping rows keeps any other column free of duplicates. *)
Lemma drop_dups_keeps_NoDup {B} (f : gmap string cell -> B) key seen rs :
  NoDup (map f rs) -> NoDup (map f (App.drop_dups key seen rs)).
Proof.
  revert seen. induction rs as [|r0 rs IH]; intros seen; simpl; [done|].
  intros [Hr0 Hrs]%NoDup_cons. case_bool_decide; [by apply IH|].
  simpl. constructor; [|by apply IH].
  intros (r & Hr & Hin)%list_elem_of_fmap. apply Hr0.
  apply list_elem_of_fmap. exists r. split; [done|].
  by apply drop_dups_elem in Hin as [? _].
Qed.

(** Rows whose keys are already distinct are all kept. *)
Lemma drop_dups_id key seen rs :
  NoDup (map key rs) -> (forall r, r ∈ rs -> key r ∉ seen) ->
  App.drop_dups key seen rs = rs.
Proof.
  revert seen. induction rs as [|r0 rs IH]; intros seen; simpl; [done|].
  intros [Hr0 Hrs]%NoDup_cons Hseen.
  rewrite bool_decide_eq_false_2 by (apply Hseen; by left).
  f_equal. apply IH; [done|].
  intros r Hr [Heq | ?]%elem_of_cons.
  - apply Hr0. apply list_elem_of_fmap. by exists r.
  - apply (Hseen r); [by right | done].
Qed.

Lemma drop_dups_map key (f : gmap string cell -> gmap string cell) seen rs :
  App.drop_dups key seen (map f rs)
  = map f (App.drop_dups (fun r => key (f r)) seen rs).
Proof.
  revert seen. induction rs as [|r0 rs IH]; intros seen; simpl; [done|].
  case_bool_decide; [apply IH|]. simpl. by rewrite IH.
Qed.

Lemma drop_dups_ext key key' seen rs :
  (forall r, key r = key' r) ->
  App.drop_dups key seen rs = App.drop_dups key' seen rs.
Proof.
  intros Hext. revert seen. induction rs as [|r0 rs IH]; intros seen; simpl;
    [done|].
  rewrite Hext. case_bool_decide; by rewrite IH.
Qed.

Lemma drop_dups_Forall (P : gmap string cell -> Prop) key seen rs :
  Forall P rs -> Forall P (App.drop_dups key seen rs).
Proof.
  rewrite !Forall_forall. intros HP r Hr. apply HP.
  by apply drop_dups_elem in Hr as [? _].
Qed.

End frames.

(** Closed decidable goals, by evaluation. *)
Ltac decide_closed :=
  match goal with
  | |- ?P => apply (bool_decide_unpack P); vm_compute; exact I
  end.

Section merge.
Context `{PyRuntime}.

(** The rows of a merged frame, from the rows of the concatenation: year
    normalisation, then the two passes. *)
Definition deduped (rs : list (gmap string cell)) : list (gmap string cell) :=
  App.drop_dups App.title_key []
    (App.drop_dups (App.cell_at "doi") [] (map App.normalize_year rs)).

Lemma filter_other_labels (c : string) cols :
  c ∉ cols -> filter (fun c' => c' <> c) (cols ++ [c]) = cols.
Proof.
  intros Hc. rewrite filter_app.
  rewrite (filter_cons _ c []), decide_False by (intros Hne; by apply Hne).
  rewrite filter_nil, app_nil_r.
  induction cols as [|c0 cols IH]; [done|].
  rewrite filter_cons, decide_True.
  - f_equal. apply IH. intros ?. apply Hc. by right.
  - intros ->. apply Hc. by left.
Qed.

Lemma dedup_spec cols rs :
  "doi"%string ∈ cols -> "_title_key"%string ∉ cols ->
  Forall (fun r : gmap string cell => r !! "_title_key"%string = None) rs ->
  App.dedup (Frame cols rs) = Frame cols (deduped rs).
Proof.
  intros Hdoi Htk Hrs. unfold App.dedup. cbv zeta. cbn [columns rows].
  assert (E1 : App.has_column "doi" (Frame cols (map App.normalize_year rs))
               = true) by (apply bool_decide_eq_true_2; exact Hdoi).
  rewrite E1.
  assert (E2 : App.has_column "_title_key"
                 (App.drop_duplicates "doi"
                    (Frame cols (map App.normalize_year rs))) = false)
    by (apply bool_decide_eq_false_2; exact Htk).
  rewrite E2.
  unfold App.drop_column, App.drop_duplicates. simpl.
  rewrite filter_other_labels by exact Htk. f_equal.
  rewrite drop_dups_map.
  rewrite (drop_dups_ext _ App.title_key)
    by (intros r; apply cell_at_insert_eq).
  rewrite map_map. unfold deduped.
  set (rs2 := App.drop_dups _ _ (App.drop_dups _ _ _)).
  assert (Hrs2 : Forall (fun r : gmap string cell =>
                           r !! "_title_key"%string = None) rs2).
  { do 2 apply drop_dups_Forall. apply Forall_fmap.
    eapply Forall_impl; [exact Hrs|]. intros r Hr. simpl.
    unfold App.normalize_year. by rewrite lookup_insert_ne. }
  clearbody rs2. induction Hrs2 as [|r rs2 Hr _ IH]; simpl; [done|].
  by rewrite delete_insert_id, IH.
Qed.

Lemma select_Ok cols df f :
  App.select cols df = Ok f ->
  f = Frame cols (map (App.reindex cols) (rows df)).
Proof.
  unfold App.select. destruct (forallb _ cols); [by intros [= <-] | discriminate].
Qed.

Lemma standardize_kci_shape df f :
  App.standardize_kci df = Ok f -> columns f = App.canonical.
Proof.
  unfold App.standardize_kci. intros Hf. bind_inv Hf as kci Hkci.
  apply select_Ok in Hf. by subst f.
Qed.

Lemma standardize_riss_shape df f :
  App.standardize_riss df = Ok f -> columns f = App.keep.
Proof.
  unfold App.standardize_riss. intros Hf. bind_inv Hf as riss Hriss.
  apply select_Ok in Hf. by subst f.
Qed.

Lemma standardized_cases standardize df frames :
  App.standardized standardize df = Ok frames ->
  frames = [] \/ exists df' f, standardize df' = Ok f /\ frames = [f].
Proof.
  unfold App.standardized. destruct df as [df|]; [|intros [= <-]; by left].
  destruct (App.empty df); [intros [= <-]; by left|].
  intros Hf. bind_inv Hf as f Hstd. injection Hf as <-. right. by exists df, f.
Qed.

Lemma reindexed_no_title_key cols (rs : list (gmap string cell)) :
  "_title_key"%string ∉ cols ->
  Forall (fun r : gmap string cell => r !! "_title_key"%string = None)
         (map (App.reindex cols) rs).
Proof.
  intros Hc. apply Forall_fmap, Forall_forall. intros r _. simpl.
  rewrite lookup_reindex. by rewrite decide_False.
Qed.

Lemma concat_one cols rs :
  App.concat [Frame cols rs]
  = Frame (App.union_columns [cols])
          (map (App.reindex (App.union_columns [cols])) rs).
Proof.
  unfold App.concat. cbn [map columns]. f_equal.
  cbn [mbind list_bind rows]. apply app_nil_r.
Qed.

Lemma concat_two cols1 rs1 cols2 rs2 :
  App.concat [Frame cols1 rs1; Frame cols2 rs2]
  = Frame (App.union_columns [cols1; cols2])
          (map (App.reindex (App.union_columns [cols1; cols2])) (rs1 ++ rs2)).
Proof.
  unfold App.concat. cbn [map columns]. f_equal.
  cbn [mbind list_bind rows]. by rewrite app_nil_r, map_app.
Qed.

(** Every merged frame has the canonical columns, with or without the two
    Source B columns, and its rows are what the two passes keep of the
    concatenated rows. *)
Lemma merge_frames_spec df_kci df_riss merged :
  App.merge_frames df_kci df_riss = Ok merged ->
  exists cols rs,
    (cols = App.canonical \/ cols = App.keep)
    /\ merged = Frame cols (deduped (map (App.reindex cols) rs)).
Proof.
  unfold App.merge_frames. intros Hm.
  bind_inv Hm as kci Hkci. bind_inv Hm as riss Hriss.
  apply standardized_cases in Hkci as [-> | (dk & fk & Hk & ->)];
    apply standardized_cases in Hriss as [-> | (dr & fr & Hr & ->)];
    cbn [app] in Hm; injection Hm as <-.
  - exists App.canonical, []. split; [by left | reflexivity].
  - apply standardize_riss_shape in Hr. destruct fr as [cols rs].
    simpl in Hr. subst cols. exists App.keep, rs. split; [by right|].
    rewrite concat_one.
    change (App.union_columns [App.keep]) with App.keep.
    apply dedup_spec; [decide_closed | decide_closed |].
    apply reindexed_no_title_key. decide_closed.
  - apply standardize_kci_shape in Hk. destruct fk as [cols rs].
    simpl in Hk. subst cols. exists App.canonical, rs. split; [by left|].
    rewrite concat_one.
    change (App.union_columns [App.canonical]) with App.canonical.
    apply dedup_spec; [decide_closed | decide_closed |].
    apply reindexed_no_title_key. decide_closed.
  - apply standardize_kci_shape in Hk. apply standardize_riss_shape in Hr.
    destruct fk as [colsk rsk], fr as [colsr rsr]. simpl in Hk, Hr.
    subst colsk colsr. exists App.keep, (rsk ++ rsr). split; [by right|].
    rewrite concat_two.
    change (App.union_columns [App.canonical; App.keep]) with App.keep.
    apply dedup_spec; [decide_closed | decide_closed |].
    apply reindexed_no_title_key. decide_closed.
Qed.

End merge.

Section merge_properties.
Context `{PyRuntime}.

Lemma NoDup_at_most_one {A B} `{EqDecision B} (f : A -> B) (v : B) l :
  NoDup (map f l) -> (length (filter (fun r => f r = v) l) <= 1)%nat.
Proof.
  induction l as [|r l IH]; [simpl; lia|].
  intros [Hr Hl]%NoDup_cons. rewrite filter_cons.
  destruct (decide (f r = v)) as [Hv|]; [|by apply IH].
  destruct (filter (fun r => f r = v) l) as [|r' rest] eqn:Hf; [simpl; lia|].
  exfalso. apply Hr.
  assert (Hin : r' ∈ filter (fun r => f r = v) l) by (rewrite Hf; by left).
  apply list_elem_of_filter in Hin as [Hv' Hin].
  apply list_elem_of_fmap. exists r'. split; [congruence | done].
Qed.

Lemma deduped_doi_NoDup rs : NoDup (map (App.cell_at "doi") (deduped rs)).
Proof. unfold deduped. apply drop_dups_keeps_NoDup, drop_dups_NoDup. Qed.

Lemma deduped_title_NoDup rs : NoDup (map App.title_key (deduped rs)).
Proof. apply drop_dups_NoDup. Qed.

Lemma deduped_year rs r :
  r ∈ deduped rs ->
  App.year_cell (App.cell_at "pub_year" r) = App.cell_at "pub_year" r.
Proof.
  unfold deduped. intros [Hr _]%drop_dups_elem.
  apply drop_dups_elem in Hr as [Hr _].
  apply list_elem_of_fmap in Hr as (r0 & -> & _).
  unfold App.normalize_year. rewrite cell_at_insert_eq. apply year_cell_idem.
Qed.

(** C2. In every merged frame the doi values of the records are pairwise
    distinct, the empty one included: at most one record with an empty doi
    is left. *)
Theorem merged_doi_distinct df_kci df_riss merged :
  App.merge_frames df_kci df_riss = Ok merged ->
  NoDup (map (App.cell_at "doi") (rows merged))
  /\ (length (filter (fun r => App.cell_at "doi" r = Str []) (rows merged))
      <= 1)%nat.
Proof.
  intros (cols & rs & _ & ->)%merge_frames_spec. simpl rows.
  pose proof (deduped_doi_NoDup (map (App.reindex cols) rs)) as Hnd.
  split; [exact Hnd | by apply NoDup_at_most_one].
Qed.

End merge_properties.

Definition row_of (cells : list (string * string)) : gmap string cell :=
  list_to_map (map (fun kv => (kv.1, Str (lit kv.2))) cells).

Definition sample_kci : frame :=
  Frame ["title"; "journal_name"; "pub_year"; "doi"]%string
    [ row_of [("title", "Youth credit"); ("journal_name", "Journal A");
              ("pub_year", "2023"); ("doi", "10.1/a")]%string;
      row_of [("title", "Credit limits"); ("journal_name", "Journal B");
              ("pub_year", "2022.03"); ("doi", "10.1/a")]%string ].

Definition sample_riss : frame :=
  Frame ["title"; "author"; "publisher"; "pub_year"]%string
    [ row_of [("title", "Thesis one"); ("author", "Kim");
              ("publisher", "Univ"); ("pub_year", "2021")]%string;
      row_of [("title", "Thesis two"); ("author", "Lee");
              ("publisher", "Univ"); ("pub_year", "n/a")]%string ].

(** The titles, doi values and sources of a merge result. *)
Definition summary (m : result frame) : list (cell * cell * cell) :=
  match m with
  | Ok merged =>
      map (fun r => (App.cell_at "title" r, App.cell_at "doi" r,
                     App.cell_at "source" r)) (rows merged)
  | Raise _ => []
  end.

Lemma merged_doi_distinct_witness :
  exists merged,
    App.merge_frames (Some sample_kci) (Some sample_riss) = Ok merged
    /\ NoDup (map (App.cell_at "doi") (rows merged)).
Proof.
  destruct (App.merge_frames (Some sample_kci) (Some sample_riss))
    as [merged|e] eqn:Hm; [|vm_compute in Hm; discriminate Hm].
  exists merged. split; [reflexivity|].
  exact (proj1 (merged_doi_distinct _ _ _ Hm)).
Defined.

(** C1, on the code. The first pass treats the empty doi as a value like
    any other: of two Source B records, which have no doi, the second is
    dropped although its title differs. The record with the repeated
    non-empty doi is dropped as the claim says. *)
Theorem pass1_drops_empty_doi :
  summary (App.merge_frames (Some sample_kci) (Some sample_riss))
  = [ (Str (lit "Youth credit"), Str (lit "10.1/a"), Str (lit "KCI"));
      (Str (lit "Thesis one"), Str [], Str (lit "RISS")) ]
  /\ summary (App.merge_frames None (Some sample_riss))
     = [ (Str (lit "Thesis one"), Str [], Str (lit "RISS")) ].
Proof. split; vm_compute; reflexivity. Qed.

(** The first pass alone: of two rows without a doi only the first stays. *)
Lemma drop_dups_empty_doi (r1 r2 : gmap string cell) :
  App.cell_at "doi" r1 = Str [] -> App.cell_at "doi" r2 = Str [] ->
  App.drop_dups (App.cell_at "doi") [] [r1; r2] = [r1].
Proof.
  intros H1 H2. simpl. rewrite H1, H2. reflexivity.
Qed.

(** *** Merging a merged frame again *)

(** What a second merge makes of a row: the source tag is overwritten and
    only the nine canonical columns are kept. *)
Definition retag (r : gmap string cell) : gmap string cell :=
  App.reindex App.canonical (<["source" := Str (lit "KCI")]> r).

Section remerge.
Context `{PyRuntime}.

Lemma rename_noop mapping df :
  Forall (fun c => App.renamed mapping c = c) (columns df) ->
  NoDup (columns df) ->
  App.rename mapping df
  = Ok (Frame (columns df) (map (App.reindex (columns df)) (rows df))).
Proof.
  intros Hid Hnd. unfold App.rename.
  assert (Hcols : map (App.renamed mapping) (columns df) = columns df).
  { induction Hid as [|c cols Hc _ IH]; simpl; [done|].
    rewrite Hc. f_equal. apply IH. by apply NoDup_cons in Hnd as [_ ?]. }
  rewrite Hcols, bool_decide_eq_true_2 by exact Hnd.
  do 2 f_equal. apply map_ext. intros r. unfold App.reindex. f_equal.
  clear Hcols Hnd. induction Hid as [|c cols Hc _ IH]; simpl; [done|].
  by rewrite Hc, IH.
Qed.

Lemma fill_missing_noop cols df :
  (forall c, c ∈ cols -> c ∈ columns df) -> App.fill_missing cols df = df.
Proof.
  intros Hsub. unfold App.fill_missing.
  induction cols as [|c cols IH]; simpl; [done|].
  unfold App.has_column at 2.
  rewrite bool_decide_eq_true_2 by (apply Hsub; by left).
  apply IH. intros c' Hc'. apply Hsub. by right.
Qed.

Lemma select_all cols df :
  (forall c, c ∈ cols -> c ∈ columns df) ->
  App.select cols df = Ok (Frame cols (map (App.reindex cols) (rows df))).
Proof.
  intros Hsub. unfold App.select.
  assert (Hall : forallb (fun c => App.has_column c df) cols = true).
  { apply forallb_forall. intros c Hc%list_elem_of_In.
    apply bool_decide_eq_true_2. by apply Hsub. }
  by rewrite Hall.
Qed.

Lemma canonical_in cols :
  cols = App.canonical \/ cols = App.keep ->
  forall c, c ∈ App.canonical -> c ∈ cols.
Proof.
  intros [-> | ->] c Hc; [exact Hc|].
  unfold App.keep. unfold App.canonical in Hc.
  repeat (apply elem_of_cons in Hc as [-> | Hc]; [decide_closed|]).
  inversion Hc.
Qed.

(** Standardising a merged frame as Source A input retags its rows. *)
Lemma standardize_merged cols rs :
  cols = App.canonical \/ cols = App.keep ->
  App.standardize_kci (Frame cols rs)
  = Ok (Frame App.canonical (map retag rs)).
Proof.
  intros Hcols. unfold App.standardize_kci.
  assert (Hassign : App.assign "source" (Str (lit "KCI")) (Frame cols rs)
            = Frame cols (map (insert "source"%string (Str (lit "KCI"))) rs)).
  { unfold App.assign, App.has_column. simpl.
    rewrite bool_decide_eq_true_2; [done|].
    apply (canonical_in cols Hcols). decide_closed. }
  rewrite Hassign, rename_noop; cbn [columns rows].
  - rewrite bind_Ok_l. rewrite fill_missing_noop, select_all; cbn [columns rows].
    + do 2 f_equal. rewrite !map_map. apply map_ext. intros r.
      unfold retag. apply reindex_reindex. by apply canonical_in.
    + by apply canonical_in.
    + intros c Hc. apply (canonical_in cols Hcols).
      revert c Hc. apply Forall_forall. decide_closed.
  - destruct Hcols as [-> | ->]; decide_closed.
  - destruct Hcols as [-> | ->]; decide_closed.
Qed.

Lemma cell_at_retag r c :
  c ∈ App.canonical ->
  App.cell_at c (retag r)
  = if decide (c = "source"%string) then Str (lit "KCI") else App.cell_at c r.
Proof.
  intros Hc. unfold retag. rewrite cell_at_reindex by exact Hc.
  destruct (decide (c = "source"%string)) as [-> | Hne].
  - apply cell_at_insert_eq.
  - by apply cell_at_insert_ne.
Qed.

Lemma retag_fixed rs :
  NoDup (map (App.cell_at "doi") rs) ->
  NoDup (map App.title_key rs) ->
  Forall (fun r => App.year_cell (App.cell_at "pub_year" r)
                   = App.cell_at "pub_year" r) rs ->
  deduped (map retag rs) = map retag rs.
Proof.
  intros Hdoi Htitle Hyear. unfold deduped.
  assert (Hy : map App.normalize_year (map retag rs) = map retag rs).
  { rewrite map_map. apply Forall_fmap_ext_1.
    eapply Forall_impl; [exact Hyear|]. intros r Hr. simpl.
    unfold App.normalize_year.
    rewrite cell_at_retag, decide_False, Hr by (discriminate || decide_closed).
    apply insert_id. unfold retag. rewrite lookup_reindex.
    rewrite decide_True by decide_closed.
    by rewrite cell_at_insert_ne. }
  rewrite Hy.
  rewrite (drop_dups_id (App.cell_at "doi")).
  - apply drop_dups_id; [|intros r _; apply not_elem_of_nil].
    rewrite map_map.
    rewrite (map_ext _ App.title_key); [exact Htitle|].
    intros r. unfold App.title_key.
    by rewrite cell_at_retag, decide_False by (discriminate || decide_closed).
  - rewrite map_map.
    rewrite (map_ext _ (App.cell_at "doi")); [exact Hdoi|].
    intros r.
    by rewrite cell_at_retag, decide_False by (discriminate || decide_closed).
  - intros r _. apply not_elem_of_nil.
Qed.

(** C3, as amended. Merging a merged frame again with an empty second
    input keeps the same records in the same order and their title, authors,
    venue, pub_year, url, doi, abstract and keywords; every record's source
    becomes "KCI" and the columns doc_type and material_type are gone. *)
Theorem remerge_retags df_kci df_riss merged :
  App.merge_frames df_kci df_riss = Ok merged ->
  App.merge_frames (Some merged) None
  = Ok (Frame App.canonical (map retag (rows merged)))
  /\ forall r c, c ∈ App.canonical ->
       App.cell_at c (retag r)
       = if decide (c = "source"%string) then Str (lit "KCI")
         else App.cell_at c r.
Proof.
  intros Hm. split; [|intros r c; apply cell_at_retag].
  apply merge_frames_spec in Hm as (cols & rs & Hcols & ->). simpl rows.
  set (rs0 := map (App.reindex cols) rs).
  pose proof (deduped_doi_NoDup rs0) as Hdoi.
  pose proof (deduped_title_NoDup rs0) as Htitle.
  assert (Hyear : Forall (fun r => App.year_cell (App.cell_at "pub_year" r)
                                   = App.cell_at "pub_year" r) (deduped rs0)).
  { apply Forall_forall. intros r. apply deduped_year. }
  destruct (deduped rs0) as [|r0 rest] eqn:Hrows.
  - unfold App.merge_frames, App.standardized.
    assert (He : App.empty (Frame cols []) = true)
      by (destruct Hcols as [-> | ->]; reflexivity).
    by rewrite He.
  - unfold App.merge_frames, App.standardized.
    assert (He : App.empty (Frame cols (r0 :: rest)) = false)
      by (destruct Hcols as [-> | ->]; reflexivity).
    rewrite He, (standardize_merged cols (r0 :: rest) Hcols).
    rewrite !bind_Ok_l. cbn [app]. rewrite concat_one.
    change (App.union_columns [App.canonical]) with App.canonical.
    assert (Hre : map (App.reindex App.canonical) (map retag (r0 :: rest))
                  = map retag (r0 :: rest)).
    { rewrite map_map. apply map_ext. intros r. unfold retag.
      by apply reindex_reindex. }
    rewrite Hre, dedup_spec.
    + by rewrite (retag_fixed (r0 :: rest) Hdoi Htitle Hyear).
    + decide_closed.
    + decide_closed.
    + rewrite <- Hre. apply reindexed_no_title_key. decide_closed.
Qed.

End remerge.

Lemma remerge_retags_witness :
  exists merged,
    App.merge_frames (Some sample_kci) (Some sample_riss) = Ok merged
    /\ App.merge_frames (Some merged) None
       = Ok (Frame App.canonical (map retag (rows merged))).
Proof.
  destruct (App.merge_frames (Some sample_kci) (Some sample_riss))
    as [merged|e] eqn:Hm; [|vm_compute in Hm; discriminate Hm].
  exists merged. split; [reflexivity|].
  exact (proj1 (remerge_retags _ _ _ Hm)).
Defined.

(** C3 as stated fails: the Source B record of the first merge comes back
    from the second one tagged "KCI" and without its two extra columns. *)
Lemma remerge_counterexample :
  ~ (forall (rt : PyRuntime) df_kci df_riss merged,
        App.merge_frames df_kci df_riss = Ok merged ->
        App.merge_frames (Some merged) None = Ok merged).
Proof.
  intros Hclaim.
  destruct (App.merge_frames None (Some sample_riss)) as [merged|e] eqn:Hm;
    [|vm_compute in Hm; discriminate Hm].
  specialize (Hclaim sample_runtime None (Some sample_riss) merged Hm).
  vm_compute in Hm. injection Hm as <-.
  vm_compute in Hclaim. discriminate Hclaim.
Qed.

Example remerge_sample :
  summary (App.merge_frames None (Some sample_riss))
  = [ (Str (lit "Thesis one"), Str [], Str (lit "RISS")) ]
  /\ (match App.merge_frames None (Some sample_riss) with
      | Ok merged => summary (App.merge_frames (Some merged) None)
      | Raise _ => []
      end)
     = [ (Str (lit "Thesis one"), Str [], Str (lit "KCI")) ].
Proof. split; vm_compute; reflexivity. Qed.

(** * Further properties of [app.py] *)

(** The rows a frame brings to the merge: none when it is [None] or
    [.empty]. *)
Definition contribution (df : option frame) : list (gmap string cell) :=
  match df with
  | Some df => if App.empty df then [] else rows df
  | None => []
  end.

(** The columns of the merge result: the two Source B columns are there as
    soon as Source B brings a row. *)
Definition merged_columns (df_riss : option frame) : list string :=
  match contribution df_riss with
  | [] => App.canonical
  | _ :: _ => App.keep
  end.

Section merge_shape.
Context `{PyRuntime}.

Lemma assign_length c v df :
  length (rows (App.assign c v df)) = length (rows df).
Proof. unfold App.assign. simpl. apply length_map. Qed.

Lemma fill_missing_length cols df :
  length (rows (App.fill_missing cols df)) = length (rows df).
Proof.
  unfold App.fill_missing. revert df.
  induction cols as [|c cols IH]; intros df; simpl; [done|].
  rewrite IH. destruct (App.has_column c df); [done | apply assign_length].
Qed.

Lemma rename_length mapping df f :
  App.rename mapping df = Ok f -> length (rows f) = length (rows df).
Proof.
  unfold App.rename. case_bool_decide; [|discriminate].
  intros [= <-]. simpl. apply length_map.
Qed.

Lemma standardize_kci_length df f :
  App.standardize_kci df = Ok f -> length (rows f) = length (rows df).
Proof.
  unfold App.standardize_kci. intros Hf. bind_inv Hf as kci Hkci.
  apply select_Ok in Hf. subst f. cbn [rows]. rewrite length_map.
  rewrite fill_missing_length, (rename_length _ _ _ Hkci).
  apply assign_length.
Qed.

Lemma standardize_riss_length df f :
  App.standardize_riss df = Ok f -> length (rows f) = length (rows df).
Proof.
  unfold App.standardize_riss. intros Hf. bind_inv Hf as riss Hriss.
  apply select_Ok in Hf. subst f. cbn [rows]. rewrite length_map.
  rewrite !fill_missing_length, (rename_length _ _ _ Hriss).
  apply assign_length.
Qed.

Lemma standardized_contribution standardize df frames :
  App.standardized standardize df = Ok frames ->
  (contribution df = [] /\ frames = [])
  \/ exists df' f, df = Some df' /\ contribution df = rows df'
       /\ rows df' <> [] /\ standardize df' = Ok f /\ frames = [f].
Proof.
  unfold App.standardized, contribution.
  destruct df as [df|]; [|intros [= <-]; by left].
  destruct (App.empty df) eqn:He; [intros [= <-]; by left|].
  intros Hf. bind_inv Hf as f Hstd. injection Hf as <-. right.
  exists df, f. repeat split; try done.
  intros Hrows. unfold App.empty in He. rewrite Hrows in He.
  by destruct (columns df).
Qed.

(** The merge result in terms of the rows each source brings. *)
Lemma merge_frames_rows df_kci df_riss merged :
  App.merge_frames df_kci df_riss = Ok merged ->
  exists rsA rsB,
    length rsA = length (contribution df_kci)
    /\ length rsB = length (contribution df_riss)
    /\ merged = Frame (merged_columns df_riss)
                  (deduped (map (App.reindex (merged_columns df_riss))
                                (rsA ++ rsB))).
Proof.
  unfold App.merge_frames, merged_columns. intros Hm.
  bind_inv Hm as kci Hkci. bind_inv Hm as riss Hriss.
  apply standardized_contribution in Hkci
    as [[Ha ->] | (dk & fk & -> & Ha & Hne & Hk & ->)];
    apply standardized_contribution in Hriss
      as [[Hb ->] | (dr & fr & -> & Hb & Hnr & Hr & ->)];
    cbn [app] in Hm; injection Hm as <-; rewrite ?Ha, ?Hb.
  - by exists [], [].
  - pose proof (standardize_riss_length _ _ Hr) as Hlen.
    apply standardize_riss_shape in Hr. destruct fr as [cols rs].
    simpl in Hr, Hlen. subst cols. exists [], rs.
    split; [done|]. split; [done|].
    destruct (rows dr) as [|r0 rest]; [done|].
    rewrite concat_one.
    change (App.union_columns [App.keep]) with App.keep.
    apply dedup_spec; [decide_closed | decide_closed |].
    apply reindexed_no_title_key. decide_closed.
  - pose proof (standardize_kci_length _ _ Hk) as Hlen.
    apply standardize_kci_shape in Hk. destruct fk as [cols rs].
    simpl in Hk, Hlen. subst cols. exists rs, [].
    split; [done|]. split; [done|]. rewrite app_nil_r.
    rewrite concat_one.
    change (App.union_columns [App.canonical]) with App.canonical.
    apply dedup_spec; [decide_closed | decide_closed |].
    apply reindexed_no_title_key. decide_closed.
  - pose proof (standardize_kci_length _ _ Hk) as HlenA.
    pose proof (standardize_riss_length _ _ Hr) as HlenB.
    apply standardize_kci_shape in Hk. apply standardize_riss_shape in Hr.
    destruct fk as [colsk rsk], fr as [colsr rsr]. simpl in *.
    subst colsk colsr. exists rsk, rsr.
    split; [done|]. split; [done|].
    destruct (rows dr) as [|r0 rest]; [done|].
    rewrite concat_two.
    change (App.union_columns [App.canonical; App.keep]) with App.keep.
    apply dedup_spec; [decide_closed | decide_closed |].
    apply reindexed_no_title_key. decide_closed.
Qed.

Lemma drop_dups_length key seen rs :
  (length (App.drop_dups key seen rs) <= length rs)%nat.
Proof.
  revert seen. induction rs as [|r rs IH]; intros seen; simpl; [lia|].
  case_bool_decide; simpl; [specialize (IH seen) | specialize (IH (key r :: seen))];
    lia.
Qed.

Lemma drop_dups_nil key rs : App.drop_dups key [] rs = [] <-> rs = [].
Proof.
  split; [|by intros ->]. destruct rs as [|r rs]; [done|].
  cbn [App.drop_dups].
  rewrite (bool_decide_eq_false_2 (key r ∈ [])) by apply not_elem_of_nil.
  discriminate.
Qed.

Lemma deduped_length rs : (length (deduped rs) <= length rs)%nat.
Proof.
  unfold deduped.
  etransitivity; [apply drop_dups_length|].
  etransitivity; [apply drop_dups_length|]. by rewrite length_map.
Qed.

Lemma deduped_nil rs : deduped rs = [] <-> rs = [].
Proof.
  unfold deduped. rewrite !drop_dups_nil. split; [|by intros ->].
  by destruct rs.
Qed.

(** The merge never invents a record and never loses all of them: the
    result has at most as many records as the two inputs bring, and it is
    empty only when both bring none. *)
Theorem merged_size df_kci df_riss merged :
  App.merge_frames df_kci df_riss = Ok merged ->
  (length (rows merged)
   <= length (contribution df_kci) + length (contribution df_riss))%nat
  /\ (rows merged = [] <->
      contribution df_kci = [] /\ contribution df_riss = []).
Proof.
  intros (rsA & rsB & HA & HB & ->)%merge_frames_rows. simpl rows. split.
  - etransitivity; [apply deduped_length|].
    rewrite length_map, length_app. lia.
  - rewrite deduped_nil. split.
    + intros Hnil. apply (f_equal length) in Hnil.
      rewrite length_map, length_app in Hnil. simpl in Hnil.
      split; apply length_zero_iff_nil; lia.
    + intros [Ha Hb]. rewrite Ha in HA. rewrite Hb in HB.
      apply length_zero_iff_nil in HA, HB. by subst.
Qed.

(** The columns of a merged frame are the nine canonical ones, followed by
    doc_type and material_type exactly when Source B brings a record, and
    every row carries exactly these labels. *)
Theorem merged_columns_rows df_kci df_riss merged :
  App.merge_frames df_kci df_riss = Ok merged ->
  columns merged = merged_columns df_riss
  /\ forall r c, r ∈ rows merged ->
       (is_Some (r !! c) <-> c ∈ columns merged).
Proof.
  intros (rsA & rsB & _ & _ & ->)%merge_frames_rows. simpl.
  split; [done|]. intros r c [Hr _]%drop_dups_elem.
  apply drop_dups_elem in Hr as [Hr _].
  apply list_elem_of_fmap in Hr as (r1 & -> & Hr1).
  apply list_elem_of_fmap in Hr1 as (r0 & -> & _).
  assert (Hyear : "pub_year"%string ∈ merged_columns df_riss).
  { unfold merged_columns. destruct (contribution df_riss); decide_closed. }
  unfold App.normalize_year.
  destruct (decide (c = "pub_year"%string)) as [-> | Hne].
  - rewrite lookup_insert_eq. split; [done | by eexists].
  - rewrite lookup_insert_ne by done. rewrite lookup_reindex.
    destruct (decide (c ∈ merged_columns df_riss)); split;
      first [done | by eexists | by intros [? ?]].
Qed.

(** In a merged frame the year of every record is a run of four decimal
    digits or the missing value. *)
Theorem merged_year_shape df_kci df_riss merged r :
  App.merge_frames df_kci df_riss = Ok merged ->
  r ∈ rows merged ->
  App.cell_at "pub_year" r = NaN
  \/ exists y, App.cell_at "pub_year" r = Str y /\ digit_run y.
Proof.
  intros (cols & rs & _ & ->)%merge_frames_spec [Hr _]%drop_dups_elem.
  apply drop_dups_elem in Hr as [Hr _].
  apply list_elem_of_fmap in Hr as (r1 & -> & _).
  unfold App.normalize_year. rewrite cell_at_insert_eq.
  unfold App.year_cell, App.extract_year.
  destruct (App.search_year _) as [y|] eqn:Hy; [right | by left].
  exists y. split; [done|].
  by apply search_year_Some in Hy as (_ & _ & _ & Hrun & _).
Qed.

(** After the merge no two records share a normalised title key; the
    empty key counts like any other. *)
Theorem merged_title_keys_distinct df_kci df_riss merged :
  App.merge_frames df_kci df_riss = Ok merged ->
  NoDup (map (fun r => App.normalize_title (App.cell_at "title" r))
             (rows merged)).
Proof.
  intros (cols & rs & _ & ->)%merge_frames_spec. simpl rows.
  pose proof (deduped_title_NoDup (map (App.reindex cols) rs)) as Hnd.
  unfold App.title_key in Hnd.
  rewrite <- (map_map (fun r => App.normalize_title (App.cell_at "title" r))
                Str) in Hnd.
  by apply NoDup_fmap_1 in Hnd.
Qed.

End merge_shape.

(** The sample merge, as a frame. *)
Definition sample_merged : frame :=
  match App.merge_frames (Some sample_kci) (Some sample_riss) with
  | Ok merged => merged
  | Raise _ => Frame [] []
  end.

Lemma sample_merged_Ok :
  App.merge_frames (Some sample_kci) (Some sample_riss) = Ok sample_merged.
Proof. vm_compute. reflexivity. Qed.

Lemma merged_size_witness :
  (length (rows sample_merged) <= 2 + 2)%nat.
Proof.
  exact (proj1 (merged_size (Some sample_kci) (Some sample_riss) sample_merged
                  sample_merged_Ok)).
Defined.

Lemma merged_columns_rows_witness : columns sample_merged = App.keep.
Proof.
  exact (proj1 (merged_columns_rows (Some sample_kci) (Some sample_riss)
                  sample_merged sample_merged_Ok)).
Defined.

Lemma merged_title_keys_distinct_witness :
  NoDup (map (fun r => App.normalize_title (App.cell_at "title" r))
             (rows sample_merged)).
Proof.
  exact (merged_title_keys_distinct (Some sample_kci) (Some sample_riss)
           sample_merged sample_merged_Ok).
Defined.

Lemma merged_year_shape_witness :
  exists r, r ∈ rows sample_merged
    /\ (App.cell_at "pub_year" r = NaN
        \/ exists y, App.cell_at "pub_year" r = Str y /\ digit_run y).
Proof.
  destruct (rows sample_merged) as [|r rest] eqn:Hrows;
    [vm_compute in Hrows; discriminate Hrows|].
  exists r. split; [by left|].
  apply (merged_year_shape (Some sample_kci) (Some sample_riss) sample_merged r
           sample_merged_Ok).
  rewrite Hrows. by left.
Defined.

(** * Further properties of [KCI_collector.py] and [RISS_collector.py] *)

(** Induction on values, through lists and dict entries. *)
Fixpoint value_nested_ind (P : value -> Prop)
    (HNone : P VNone) (HStr : forall s, P (VStr s)) (HInt : forall z, P (VInt z))
    (HList : forall items, Forall P items -> P (VList items))
    (HDict : forall entries, Forall (fun kv => P kv.2) entries -> P (VDict entries))
    (v : value) {struct v} : P v :=
  match v with
  | VNone => HNone
  | VStr s => HStr s
  | VInt z => HInt z
  | VList items =>
      HList items
        ((fix go (l : list value) : Forall P l :=
            match l with
            | [] => Forall_nil_2 P
            | x :: l' =>
                Forall_cons_2 P x l'
                  (value_nested_ind P HNone HStr HInt HList HDict x) (go l')
            end) items)
  | VDict entries =>
      HDict entries
        ((fix go (l : list (string * value)) : Forall (fun kv => P kv.2) l :=
            match l with
            | [] => Forall_nil_2 _
            | kv :: l' =>
                Forall_cons_2 (fun kv => P kv.2) kv l'
                  (value_nested_ind P HNone HStr HInt HList HDict kv.2) (go l')
            end) entries)
  end.

Section stripping.
Context `{PyRuntime}.

(** No white space in front. *)
Definition clean (s : str) : Prop :=
  match s with [] => True | c :: _ => isspace c = false end.

(** No white space at either end. *)
Definition trimmed (s : str) : Prop := clean s /\ clean (reverse s).

Lemma lstrip_clean s : clean (lstrip s).
Proof.
  induction s as [|c s IH]; simpl; [done|].
  destruct (isspace c) eqn:Hc; [exact IH | exact Hc].
Qed.

Lemma lstrip_id s : clean s -> lstrip s = s.
Proof. destruct s as [|c s]; simpl; [done|]. by intros ->. Qed.

Lemma lstrip_suffix s : exists w, s = w ++ lstrip s.
Proof.
  induction s as [|c s [w IH]]; simpl; [by exists []|].
  destruct (isspace c); [|by exists []].
  exists (c :: w). simpl. by f_equal.
Qed.

Lemma strip_trimmed s : trimmed (strip s).
Proof.
  unfold strip, trimmed. rewrite reverse_involutive.
  split; [|apply lstrip_clean].
  pose proof (lstrip_clean s) as Hs.
  destruct (lstrip_suffix (reverse (lstrip s))) as [w Hw].
  apply (f_equal reverse) in Hw.
  rewrite reverse_involutive, reverse_app in Hw.
  destruct (reverse (lstrip (reverse (lstrip s)))) as [|c u]; [done|].
  rewrite Hw in Hs. exact Hs.
Qed.

Lemma strip_id s : trimmed s -> strip s = s.
Proof.
  intros [H1 H2]. unfold strip.
  by rewrite (lstrip_id s H1), (lstrip_id _ H2), reverse_involutive.
Qed.

Lemma strip_idem s : strip (strip s) = strip s.
Proof. apply strip_id, strip_trimmed. Qed.

Lemma trimmed_nil : trimmed [].
Proof. by split. Qed.

(** Both flatteners return text without white space at either end. *)
Theorem flatteners_trim data :
  trimmed (KCI._extract_text_fast data) /\ trimmed (RISS._extract_text data).
Proof.
  induction data as [| s | z | items IH | entries IH] using value_nested_ind.
  - split; apply trimmed_nil.
  - split; apply strip_trimmed.
  - split; simpl; [destruct (z =? 0)%Z; [apply trimmed_nil|] |];
      apply strip_trimmed.
  - destruct IH as [|x items [Hx1 Hx2] _]; simpl.
    + split; [apply trimmed_nil | apply strip_trimmed].
    + by split.
  - split; simpl.
    + destruct (dict_get "text" entries); [apply strip_trimmed|].
      destruct (dict_get "#text" entries); [apply strip_trimmed|].
      destruct (dict_get "content" entries); [apply strip_trimmed|].
      destruct (dict_get "value" entries); [apply strip_trimmed|].
      destruct IH as [|[k v] [|kv rest] [Hv _] _]; try apply trimmed_nil.
      destruct (KCI.excluded k); [apply trimmed_nil | exact Hv].
    + destruct (dict_get "text" entries); [apply strip_trimmed|].
      destruct (dict_get "#text" entries); [apply strip_trimmed|].
      destruct entries as [|[k v] rest]; [apply trimmed_nil | apply strip_trimmed].
Qed.

(** Flattening is stable: stripping the result again changes nothing. *)
Lemma extract_text_fast_strip data :
  strip (KCI._extract_text_fast data) = KCI._extract_text_fast data.
Proof. apply strip_id, flatteners_trim. Qed.

End stripping.

Section keywords.
Context `{PyRuntime}.

Lemma collect_texts_spec keyword_data :
  Forall (fun t => t <> [] /\ trimmed t) (KCI.collect_texts keyword_data).
Proof.
  assert (Hone : forall v,
    Forall (fun t => t <> [] /\ trimmed t)
      (if nonempty (KCI._extract_text_fast v)
       then [KCI._extract_text_fast v] else [])).
  { intros v. destruct (nonempty (KCI._extract_text_fast v)) eqn:Hne;
      [|constructor].
    repeat constructor; [|apply flatteners_trim..].
    intros Hnil. rewrite Hnil in Hne. discriminate. }
  destruct keyword_data; try apply Hone.
  simpl. apply Forall_forall. intros t [Hne Hin]%list_elem_of_filter.
  split; [by intros ->|].
  apply list_elem_of_fmap in Hin as (v & -> & _). apply flatteners_trim.
Qed.

(** Path extraction only returns texts that are non-empty and free of
    white space at both ends. *)
Theorem extract_from_path_texts data path texts :
  KCI._extract_from_path data path = Ok texts ->
  Forall (fun t => t <> [] /\ trimmed t) texts.
Proof.
  unfold KCI._extract_from_path.
  destruct (KCI.walk data (removelast path)) as [cur|];
    [|intros [= <-]; constructor].
  destruct cur; try (intros [= <-]; constructor).
  intros Hk. bind_inv Hk as key Hkey.
  destruct (dict_get key entries); injection Hk as <-;
    [apply collect_texts_spec | constructor].
Qed.

(** Under the last key a sequence gives the texts of its elements in
    order, the empty ones left out and nothing merged. *)
Theorem extract_from_path_sequence d key items :
  dict_get key d = Some (VList items) ->
  KCI._extract_from_path (VDict d) [key]
  = Ok (filter (fun t => t <> []) (map KCI._extract_text_fast items)).
Proof.
  intros Hk. unfold KCI._extract_from_path. simpl. rewrite Hk. simpl.
  f_equal. apply list_filter_iff. intros t. by destruct t.
Qed.

Lemma first_keywords_app l1 l2 kw :
  KCI.first_keywords l1 = Ok kw -> kw <> [] ->
  KCI.first_keywords (l1 ++ l2) = Ok kw.
Proof.
  induction l1 as [|[source_data path] l1 IH]; simpl.
  - by intros [= <-].
  - destruct (KCI._extract_from_path source_data path) as [keywords|e];
      [|discriminate]. simpl.
    destruct keywords; [exact IH | done].
Qed.

Lemma first_keywords_returns sources :
  Forall (fun sp => sp.2 <> []) sources ->
  exists kw, KCI.first_keywords sources = Ok kw.
Proof.
  induction 1 as [|[source_data path] sources Hp _ [kw IH]]; simpl;
    [by eexists|].
  destruct (extract_from_path_returns source_data path Hp) as [texts ->].
  simpl. destruct texts; by eexists.
Qed.

(** Without a detail payload keyword extraction never raises, whatever the
    shape of the record. *)
Theorem keywords_without_detail_total article_info :
  exists kw, KCI._extract_keywords_optimized article_info VNone = Ok kw.
Proof.
  unfold KCI._extract_keywords_optimized. cbn [truthy]. rewrite bind_Ok_l.
  apply first_keywords_returns. repeat constructor; discriminate.
Qed.

(** The detail payload is a fallback only: keywords found in the search
    record itself are what enrichment computes again. *)
Theorem keywords_detail_is_fallback article_info detail_info kw kw' :
  KCI._extract_keywords_optimized article_info VNone = Ok kw ->
  kw <> [] ->
  KCI._extract_keywords_optimized article_info detail_info = Ok kw' ->
  kw' = kw.
Proof.
  unfold KCI._extract_keywords_optimized. cbn [truthy]. rewrite bind_Ok_l.
  rewrite app_nil_r. intros Hkw Hne Hkw'. bind_inv Hkw' as extra Hextra.
  rewrite (first_keywords_app _ extra kw Hkw Hne) in Hkw'. congruence.
Qed.

End keywords.

Definition sample_article_info : value :=
  VDict [("kwd-group"%string,
          VDict [("kwd"%string,
                  VList [ VDict [("text"%string, VStr (lit " credit "))];
                          VDict [("lang"%string, VStr (lit "en"))];
                          VStr (lit "youth") ])])].

Lemma extract_from_path_texts_witness :
  KCI._extract_from_path sample_article_info ["kwd-group"; "kwd"]%string
  = Ok [lit "credit"; lit "youth"]
  /\ Forall (fun t => t <> [] /\ trimmed t) [lit "credit"; lit "youth"].
Proof.
  assert (He : KCI._extract_from_path sample_article_info
                 ["kwd-group"; "kwd"]%string
               = Ok [lit "credit"; lit "youth"]) by (vm_compute; reflexivity).
  split; [exact He|].
  exact (extract_from_path_texts _ _ _ He).
Defined.

Lemma extract_from_path_sequence_witness :
  KCI._extract_from_path
    (VDict [("keyword"%string, VList [VStr (lit "a"); VStr (lit " ")])])
    ["keyword"%string]
  = Ok (filter (fun t => t <> [])
          (map KCI._extract_text_fast [VStr (lit "a"); VStr (lit " ")])).
Proof.
  apply (extract_from_path_sequence
           [("keyword"%string, VList [VStr (lit "a"); VStr (lit " ")])]).
  reflexivity.
Defined.

Lemma keywords_detail_is_fallback_witness :
  KCI._extract_keywords_optimized sample_article_info sample_detail
  = Ok (lit "credit; youth").
Proof.
  destruct (KCI._extract_keywords_optimized sample_article_info sample_detail)
    as [kw'|e] eqn:Hd; [|vm_compute in Hd; discriminate Hd].
  f_equal.
  apply (keywords_detail_is_fallback sample_article_info sample_detail
           (lit "credit; youth") kw'); [| |exact Hd].
  - vm_compute. reflexivity.
  - discriminate.
Defined.

Section source_A_pipeline.
Context `{PyRuntime}.

Lemma first_five_length authors firsts :
  KCI.first_five authors = Ok firsts -> (length firsts <= 5)%nat.
Proof.
  destruct authors; try discriminate; intros [= <-];
    rewrite ?length_map, length_take; lia.
Qed.

(** The fields of a normalised record that the later stages read. *)
Lemma basic_info_fields record article :
  KCI._extract_basic_info record = Ok article ->
  exists title names abstract keywords,
    article !! "title"%string = Some (VStr title) /\ title <> []
    /\ article !! "authors"%string = Some (VStr (join (lit "; ") names))
    /\ (length names <= 5)%nat /\ Forall (fun t => t <> []) names
    /\ article !! "abstract"%string = Some (VStr abstract)
    /\ article !! "keywords"%string = Some (VStr keywords).
Proof.
  intros Hrec. unfold KCI._extract_basic_info in Hrec.
  do 14 bind_inv Hrec.
  bind_inv Hrec as author_group Hgroup.
  bind_inv Hrec as authors Hauthors.
  bind_inv Hrec as firsts Hfirsts.
  bind_inv Hrec as abstract_node Hnode.
  bind_inv Hrec as abstract_text Habstract.
  bind_inv Hrec as keywords Hkeywords.
  repeat bind_inv Hrec.
  injection Hrec as <-.
  eexists _, _, abstract_text, keywords.
  split.
  { repeat (rewrite lookup_insert_ne by discriminate). apply lookup_insert_eq. }
  split; [apply or_default_nonempty, no_title_nonempty|].
  split.
  { repeat (rewrite lookup_insert_ne by discriminate). apply lookup_insert_eq. }
  split.
  { etransitivity; [apply length_filter|]. rewrite length_map.
    by eapply first_five_length. }
  split.
  { apply Forall_forall. intros t [Hne _]%list_elem_of_filter. by intros ->. }
  split; repeat (rewrite lookup_insert_ne by discriminate);
    apply lookup_insert_eq.
Qed.

(** A normalised Source A record names at most five authors, none of them
    empty, joined by "; ". *)
Theorem basic_info_authors record article :
  KCI._extract_basic_info record = Ok article ->
  exists names,
    (length names <= 5)%nat /\ Forall (fun t => t <> []) names
    /\ article !! "authors"%string = Some (VStr (join (lit "; ") names)).
Proof.
  intros (_ & names & _ & _ & _ & _ & Ha & Hlen & Hne & _)%basic_info_fields.
  by exists names.
Qed.

(** A record with a title that is not empty. *)
Definition titled (article : gmap string value) : Prop :=
  exists title, article !! "title"%string = Some (VStr title) /\ title <> [].

Lemma basic_pass_titled fetch_details i records :
  Forall titled (KCI.basic_pass fetch_details i records).1.1.
Proof.
  revert i. induction records as [|record records IH]; intros i; simpl;
    [constructor|].
  destruct (KCI._extract_basic_info record) as [article|e] eqn:Hrec;
    [|constructor].
  specialize (IH (S i)).
  destruct (KCI.basic_pass fetch_details (S i) records) as [[articles need] e].
  simpl in *. constructor; [|exact IH].
  apply basic_info_fields in Hrec as (title & _ & _ & _ & Ht & Hne & _).
  by exists title.
Qed.

Lemma basic_pass_length fetch_details i records :
  (length (KCI.basic_pass fetch_details i records).1.1 <= length records)%nat.
Proof.
  revert i. induction records as [|record records IH]; intros i; simpl; [lia|].
  destruct (KCI._extract_basic_info record) as [article|e]; [|simpl; lia].
  specialize (IH (S i)).
  destruct (KCI.basic_pass fetch_details (S i) records) as [[articles need] e].
  simpl in *. lia.
Qed.

Lemma basic_pass_no_fetch i records :
  (KCI.basic_pass false i records).1.2 = [].
Proof.
  revert i. induction records as [|record records IH]; intros i; simpl; [done|].
  destruct (KCI._extract_basic_info record) as [article|e]; [|done].
  specialize (IH (S i)).
  destruct (KCI.basic_pass false (S i) records) as [[articles need] e].
  simpl in *. rewrite IH. by rewrite andb_false_r.
Qed.

(** The records picked for a detail lookup: each index points at its
    record, which has an identifier and lacks keywords or abstract. *)
Theorem basic_pass_need fetch_details i0 records i article_id :
  (i, article_id) ∈ (KCI.basic_pass fetch_details i0 records).1.2 ->
  exists article,
    (KCI.basic_pass fetch_details i0 records).1.1 !! (i - i0)%nat = Some article
    /\ (i0 <= i)%nat
    /\ field article "article_id" = article_id
    /\ truthy article_id = true
    /\ (truthy (field article "keywords") = false
        \/ truthy (field article "abstract") = false)
    /\ fetch_details = true.
Proof.
  revert i0. induction records as [|record records IH]; intros i0; simpl;
    [by inversion 1|].
  destruct (KCI._extract_basic_info record) as [article|e]; [|by inversion 1].
  specialize (IH (S i0)).
  destruct (KCI.basic_pass fetch_details (S i0) records) as [[articles need] e].
  simpl in *. intros [Hhere | Hlater]%elem_of_app.
  - destruct (_ && _) eqn:Hcond; [|by inversion Hhere].
    apply list_elem_of_singleton in Hhere. injection Hhere as -> ->.
    apply andb_true_iff in Hcond as [[Hneed Hid]%andb_true_iff Hfetch].
    exists article. rewrite Nat.sub_diag. repeat split; try done.
    apply orb_true_iff in Hneed as [Hk | Ha]; [left | right];
      by apply negb_true_iff.
  - destruct (IH Hlater) as (a & Ha & Hle & Hrest).
    exists a. split; [|split; [lia | exact Hrest]].
    replace (i - i0)%nat with (S (i - S i0)) by lia. exact Ha.
Qed.

Lemma enrich_details_enriched records details need articles :
  Forall2 enriched articles
    (KCI.enrich_details records details need articles).1.
Proof.
  revert articles. induction need as [|[j article_id] need IH];
    intros articles; simpl; [apply all_enriched_refl|].
  pose proof (enrich_one_writes records details j article_id articles)
    as [Hen _].
  destruct (KCI.enrich_one records details j article_id articles)
    as [articles1 [e|]]; simpl in *; [exact Hen|].
  eapply all_enriched_trans; [exact Hen | apply IH].
Qed.

Lemma enriched_titled a a' : enriched a a' -> titled a -> titled a'.
Proof.
  intros Hen (title & Ht & Hne). exists title. split; [|exact Hne].
  destruct (Hen "title"%string) as [-> | ([? | ?] & _)]; [exact Ht | done..].
Qed.

(** Whatever the response and whatever the detail lookups return, every
    row of the Source A frame has a non-empty title, and there are at most
    as many rows as records. *)
Theorem extract_article_info_rows batch api_response fetch_details :
  Forall titled
    (KCI.extract_article_info_optimized batch api_response fetch_details)
  /\ forall records,
       (output_data ← py_get api_response "outputData" (VDict []);
        records ← py_get output_data "record" (VList []);
        iter_records records) = Ok records ->
       (length (KCI.extract_article_info_optimized batch api_response
                  fetch_details) <= length records)%nat.
Proof.
  unfold KCI.extract_article_info_optimized.
  destruct (negb (truthy api_response));
    [split; [constructor | intros; simpl; lia]|].
  destruct (_ ≫= _) as [records|e]; [|split; [constructor | discriminate]].
  pose proof (basic_pass_titled fetch_details 0 records) as Ht.
  pose proof (basic_pass_length fetch_details 0 records) as Hlen.
  destruct (KCI.basic_pass fetch_details 0 records) as [[articles need] e].
  simpl in Ht, Hlen.
  assert (Hout : forall out, Forall2 enriched articles out ->
            Forall titled out /\ length out = length articles).
  { intros out Hen. split; [|symmetry; by eapply Forall2_length].
    clear Hlen. induction Hen as [|a a' l l' Ha _ IH]; [constructor|].
    apply Forall_cons in Ht as [Hta Htl].
    constructor; [by eapply enriched_titled | by apply IH]. }
  assert (Hsame : Forall titled articles /\ length articles = length articles)
    by (apply Hout, all_enriched_refl).
  assert (Hgoal : forall out,
            Forall titled out /\ length out = length articles ->
            Forall titled out
            /\ forall records0, Ok records = Ok records0 ->
                 (length out <= length records0)%nat).
  { intros out [Hf Hl]. split; [exact Hf|]. intros ? [= <-]. lia. }
  destruct need as [|n need]; [destruct e; by apply (Hgoal articles)|].
  destruct e as [e|]; [by apply (Hgoal articles)|].
  destruct (batch _) as [details|e]; [|by apply (Hgoal articles)].
  apply (Hgoal (KCI.enrich_details records details (n :: need) articles).1).
  apply Hout, enrich_details_enriched.
Qed.

(** With [fetch_details] off no detail lookup is made: the result does not
    depend on the lookup function. *)
Theorem no_fetch_no_lookup batch batch' api_response :
  KCI.extract_article_info_optimized batch api_response false
  = KCI.extract_article_info_optimized batch' api_response false.
Proof.
  unfold KCI.extract_article_info_optimized.
  destruct (negb (truthy api_response)); [done|].
  destruct (_ ≫= _) as [records|e]; [|done].
  pose proof (basic_pass_no_fetch 0 records) as Hneed.
  destruct (KCI.basic_pass false 0 records) as [[articles need] e].
  simpl in Hneed. subst need. by destruct e.
Qed.

End source_A_pipeline.

Definition sample_authors_record : value :=
  VDict [ ("articleInfo"%string,
           VDict [ ("article-id"%string, VStr (lit "ART002"));
                   ("author-group"%string,
                    VDict [ ("author"%string,
                             VList (map (fun n => VDict [("text"%string, VStr (lit n))])
                                        ["Kim"; "Lee"; "Park"; "Choi"; "Jung";
                                         "Kang"]%string)) ]) ]) ].

Lemma basic_info_authors_witness :
  exists article names,
    KCI._extract_basic_info sample_authors_record = Ok article
    /\ (length names <= 5)%nat
    /\ article !! "authors"%string = Some (VStr (join (lit "; ") names)).
Proof.
  destruct (KCI._extract_basic_info sample_authors_record)
    as [article|e] eqn:Hrec; [|vm_compute in Hrec; discriminate Hrec].
  destruct (basic_info_authors sample_authors_record article Hrec)
    as (names & Hlen & _ & Ha).
  by exists article, names.
Defined.

Example basic_info_authors_sample :
  (article ← KCI._extract_basic_info sample_authors_record;
   Ok (field article "authors"))
  = Ok (VStr (lit "Kim; Lee; Park; Choi; Jung")).
Proof. vm_compute. reflexivity. Qed.

Lemma basic_pass_need_witness :
  exists article,
    (KCI.basic_pass true 0 [sample_record; sample_authors_record]).1.1 !! 1%nat
    = Some article
    /\ field article "article_id" = VStr (lit "ART002").
Proof.
  destruct (basic_pass_need true 0 [sample_record; sample_authors_record]
              1 (VStr (lit "ART002")))
    as (article & Ha & _ & Hid & _).
  - vm_compute. right. left.
  - exists article. split; [exact Ha | exact Hid].
Defined.

Definition sample_api_response : value :=
  VDict [("outputData"%string,
          VDict [("record"%string, VList [sample_record; sample_authors_record])])].

Definition no_details (ids : list value) : result KCI.details_map := Ok [].

Lemma extract_article_info_rows_witness :
  (length (KCI.extract_article_info_optimized no_details sample_api_response
             true) <= 2)%nat.
Proof.
  apply (proj2 (extract_article_info_rows no_details sample_api_response true)
           [sample_record; sample_authors_record]).
  reflexivity.
Defined.

(** ** Source B: the records returned and the search strategies *)

(** Equality of Python values is decidable. *)
Fixpoint value_eq_dec (x y : value) {struct x} : {x = y} + {x <> y}.
Proof.
  decide equality.
  - apply (List.list_eq_dec N.eq_dec).
  - apply Z.eq_dec.
  - apply (List.list_eq_dec value_eq_dec).
  - apply List.list_eq_dec. intros [k1 v1] [k2 v2].
    destruct (string_dec k1 k2) as [->|Hk]; [|right; congruence].
    destruct (value_eq_dec v1 v2) as [->|Hv];
      [left; reflexivity | right; congruence].
Defined.

#[global] Instance value_eq_decision : EqDecision value := value_eq_dec.

Module RISSSearch.

(** The query parameters that vary between requests; key, version, sort
    order and start index are constants of the source. *)
Inductive search_field := ByTitle | ByKeyword.

Record params := Params {
  doc_type : str;
  search_by : search_field;
  search_term : str;
  spubdate : Z;
  epubdate : Z;
  rowcount : Z
}.

(** [r.get('url', '')] *)
Definition url_of (r : gmap string value) : value :=
  default (VStr []) (r !! "url"%string).

(** [[r for r in results if r.get('url', '') not in existing_urls]] *)
Definition new_results (all_results results : list (gmap string value))
  : list (gmap string value) :=
  filter (fun r => url_of r ∉ map url_of all_results) results.

Section search.
Context `{PyRuntime}.

(** The HTTP exchange: the parsed body of a 200 response, or [None] for any
    other status, a timeout or a parse error. *)
Variable fetch : params -> option value.

Definition _execute_search (p : params) : list (gmap string value) :=
  match fetch p with
  | Some result => RISS._extract_articles_from_response result
  | None => []
  end.

Definition _search_by_title (term type : str) (start_year end_year count : Z)
  : list (gmap string value) :=
  _execute_search (Params type ByTitle term start_year end_year (Z.min count 100)).

Definition _search_by_keyword (term type : str) (start_year end_year count : Z)
  : list (gmap string value) :=
  _execute_search (Params type ByKeyword term start_year end_year (Z.min count 100)).

(** The loop over the years: it stops asking once [remaining_count]
    results are in. *)
Fixpoint years_loop (term type : str) (per_year remaining_count : Z)
    (years : list Z) (results : list (gmap string value))
  : list (gmap string value) :=
  match years with
  | [] => results
  | year :: years' =>
      if (remaining_count <=? Z.of_nat (length results))%Z then results
      else
        let year_results :=
          _execute_search
            (Params type ByKeyword term year year (Z.min per_year 100)) in
        years_loop term type per_year remaining_count years'
          (results ++ year_results)
  end.

(** [None] is the [ZeroDivisionError] of [remaining_count // 0]. *)
Definition _search_by_years (term type : str)
    (start_year end_year remaining_count : Z)
  : option (list (gmap string value)) :=
  if (end_year - start_year + 1 =? 0)%Z then None
  else
    let per_year :=
      Z.max 10 (remaining_count / (end_year - start_year + 1)) in
    Some (years_loop term type per_year remaining_count
            (seqZ start_year (end_year + 1 - start_year)) []).

Definition search_with_multiple_strategies (term type : str)
    (start_year end_year max_results : Z)
  : option (list (gmap string value)) :=
  let all_results := [] in
  let title_results := _search_by_title term type start_year end_year 100 in
  let all_results := all_results ++ title_results in
  let all_results :=
    if (Z.of_nat (length all_results) <? max_results)%Z then
      let keyword_results :=
        _search_by_keyword term type start_year end_year
          (max_results - Z.of_nat (length all_results)) in
      all_results ++ new_results all_results keyword_results
    else all_results in
  if (Z.of_nat (length all_results) <? max_results)%Z then
    yearly_results ←
      _search_by_years term type start_year end_year
        (max_results - Z.of_nat (length all_results));
    Some (all_results ++ new_results all_results yearly_results)
  else Some all_results.

End search.
End RISSSearch.

Section source_B_output.
Context `{PyRuntime}.

(** A Source B article as the later stages read it: a non-empty, trimmed
    title, a url, and a type label that is the label of its type code. *)
Definition riss_article (a : gmap string value) : Prop :=
  exists title url code,
    a !! "title"%string = Some (VStr title) /\ title <> [] /\ trimmed title
    /\ a !! "url"%string = Some (VStr url)
    /\ a !! "doc_type"%string = Some (VStr code)
    /\ a !! "doc_type_name"%string = Some (VStr (RISS.doc_type_name code)).

Lemma article_of_record_fields record a :
  RISS.article_of_record record = Ok a ->
  exists title url code,
    a !! "title"%string = Some (VStr title) /\ trimmed title
    /\ a !! "url"%string = Some (VStr url)
    /\ a !! "doc_type"%string = Some (VStr code)
    /\ a !! "doc_type_name"%string = Some (VStr (RISS.doc_type_name code)).
Proof.
  destruct record as [| | | |entries]; try discriminate.
  unfold RISS.article_of_record. rewrite !text_at_total. simpl.
  intros [= <-].
  exists (RISS._extract_text (default (VStr []) (dict_get "riss.title" entries))),
         (RISS._extract_text (default (VStr []) (dict_get "url" entries))),
         (RISS._extract_text (default (VStr []) (dict_get "riss.type" entries))).
  split; [|split; [apply flatteners_trim|]]; [|repeat split];
    rewrite lookup_fmap;
    repeat (rewrite lookup_insert_ne by discriminate);
    by rewrite lookup_insert_eq.
Qed.

Lemma records_loop_elem records a :
  a ∈ RISS.records_loop records ->
  exists record, record ∈ records /\ RISS.article_of_record record = Ok a
                 /\ truthy (field a "title") = true.
Proof.
  induction records as [|record records IH]; simpl; [by inversion 1|].
  destruct (RISS.article_of_record record) as [a0|e] eqn:Ha0.
  - destruct (truthy (field a0 "title")) eqn:Ht.
    + intros [-> | Hin]%elem_of_cons.
      * exists record. split; [by left | done].
      * destruct (IH Hin) as (r & ? & ?). exists r. split; [by right | done].
    + intros Hin. destruct (IH Hin) as (r & ? & ?).
      exists r. split; [by right | done].
  - intros Hin. destruct (IH Hin) as (r & ? & ?).
    exists r. split; [by right | done].
Qed.

Lemma records_loop_articles records :
  Forall riss_article (RISS.records_loop records).
Proof.
  apply Forall_forall. intros a (record & _ & Ha & Ht)%records_loop_elem.
  apply article_of_record_fields in Ha
    as (title & url & code & Htitle & Htrim & Hurl & Hcode & Hname).
  exists title, url, code.
  split; [exact Htitle|].
  split; [|split; [exact Htrim|]; split; [exact Hurl|]; split; assumption].
  unfold field in Ht. rewrite Htitle in Ht. simpl in Ht. by intros ->.
Qed.

Lemma records_loop_length records :
  (length (RISS.records_loop records) <= length records)%nat.
Proof.
  induction records as [|record records IH]; simpl; [lia|].
  destruct (RISS.article_of_record record) as [a|e]; [|lia].
  destruct (truthy (field a "title")); simpl; lia.
Qed.

(** What comes out of a response is either nothing or the loop over the
    records of a response that passed the head checks. *)
Lemma response_output api_response :
  RISS._extract_articles_from_response api_response = []
  \/ exists d metadata records,
       api_response = VDict d /\ accepted d metadata
       /\ iter_records metadata = Ok records
       /\ RISS._extract_articles_from_response api_response
          = RISS.records_loop records.
Proof.
  destruct api_response as [| | | |d]; try by left.
  unfold RISS._extract_articles_from_response.
  destruct (dict_get "head" d) as [head|] eqn:Hh; [|by left].
  destruct (dict_get "metadata" d) as [metadata|] eqn:Hm; [|by left].
  destruct head as [| | | |head_entries]; try by left.
  unfold RISS.articles_of_envelope. rewrite !text_at_total. simpl.
  case_decide as He; [|by left].
  destruct (iter_records metadata) as [records|e] eqn:Hr; [|by left].
  right. exists d, metadata, records. repeat split; try done.
  by exists head_entries.
Qed.

(** Every article returned for a Source B response, whatever the response,
    has a non-empty trimmed title, a url and a type label that matches its
    type code. *)
Theorem response_articles api_response :
  Forall riss_article (RISS._extract_articles_from_response api_response).
Proof.
  destruct (response_output api_response)
    as [-> | (d & metadata & records & _ & _ & _ & ->)]; [constructor|].
  apply records_loop_articles.
Qed.

(** Articles are returned only for a response that is a map with a head
    map whose error code reads "0" and a metadata entry, and never more of
    them than the metadata has records. *)
Theorem response_guard api_response :
  RISS._extract_articles_from_response api_response <> [] ->
  exists d metadata records,
    api_response = VDict d /\ accepted d metadata
    /\ iter_records metadata = Ok records
    /\ (length (RISS._extract_articles_from_response api_response)
        <= length records)%nat.
Proof.
  intros Hne.
  destruct (response_output api_response)
    as [Hnil | (d & metadata & records & -> & Hacc & Hr & Hout)]; [done|].
  exists d, metadata, records. repeat split; try done.
  rewrite Hout. apply records_loop_length.
Qed.

End source_B_output.

Lemma response_guard_witness :
  exists d metadata records,
    VDict (sample_response "0") = VDict d /\ accepted d metadata
    /\ iter_records metadata = Ok records
    /\ (length (RISS._extract_articles_from_response
                  (VDict (sample_response "0"))) <= length records)%nat.
Proof.
  apply response_guard. vm_compute. discriminate.
Defined.
